(** * Slot reservation server (server/index.js): model and properties

    The Express application of [server/index.js] together with the two
    mongoose schemas ([models/AvailableSlot], [models/Booking]) is embedded
    as follows.

    - A request handler is an [async] function.  Between two [await]s it
      runs without interruption; at an [await] it hands one query to the
      store and is resumed with the outcome.  A handler is therefore a
      finite tree [Prog] whose nodes are the store calls it awaits.
    - The store is a pair of collections (lists of documents in insertion
      order) with the unique indexes the schemas declare.
    - The process owns [adminSessions] (a JS [Set]) and observes
      [mongoose.connection.readyState].
    - Requests interleave at their [await]s: [step] accepts a request,
      lets the store serve the pending call of one suspended handler, sends
      an answer, or changes the connection state; [exec] runs a trace of
      such events.  [run] is the special case of one handler served to
      its answer with nothing in between. *)

From Stdlib Require Import String Ascii List NArith Bool Lia.
From Stdlib Require Import Decimal DecimalString DecimalPos DecimalN.
From Stdlib Require Import Sorted Permutation.
From stdpp Require Import base gmap sets list strings.

Import ListNotations.
Local Open Scope string_scope.
Local Open Scope list_scope.
Local Open Scope N_scope.

(* ===================================================================== *)
(** ** JavaScript values and string primitives used by the handlers *)
(* ===================================================================== *)

Module JS.

(** A property read from [req.body] or [req.headers] is a string or is
    absent ([undefined]).  [truthy v] is the test [if (v)]; [!v] is its
    negation: an absent property and the empty string are falsy. *)
Definition truthy (v : option string) : bool :=
  match v with
  | Some (String _ _) => true
  | _ => false
  end.

(** [v || d] on an optional string. *)
Definition orElse (v : option string) (d : string) : string :=
  match v with
  | Some (String c s) => String c s
  | _ => d
  end.

(** Characters of [s] from position [n] on. *)
Fixpoint drop (n : nat) (s : string) : string :=
  match n, s with
  | O, _ => s
  | S n', String _ s' => drop n' s'
  | S _, EmptyString => EmptyString
  end.

(** [s.replace(pat, repl)] with a string pattern: only the first
    occurrence of [pat] is replaced ([repl] holds no [$] pattern). *)
Fixpoint replace (pat repl s : string) : string :=
  if String.prefix pat s then repl ++ drop (String.length pat) s
  else match s with
       | EmptyString => EmptyString
       | String c s' => String c (replace pat repl s')
       end.

(** [s.substr(start, len)]. *)
Definition substr (start len : nat) (s : string) : string :=
  String.substring start len s.

(** [n.toString()] of a non-negative integer. *)
Definition toString (n : N) : string :=
  NilZero.string_of_uint (N.to_uint n).

(** The alphabet of [x.toString(36)] for a number [x] in [0,1): the
    digits, the lower-case letters and the radix point. *)
Definition radix36_char (c : ascii) : bool :=
  let n := N_of_ascii c in
  ((48 <=? n) && (n <=? 57)) || ((97 <=? n) && (n <=? 122)) || (n =? 46).

Fixpoint every (p : ascii -> bool) (s : string) : bool :=
  match s with
  | EmptyString => true
  | String c s' => p c && every p s'
  end.

Definition radix36_string (s : string) : bool := every radix36_char s.

(** Lexicographic comparison of strings by character code, the order
    the store sorts string fields by. *)
Definition le (a b : string) : bool := String.leb a b.

End JS.

(* ===================================================================== *)
(** ** JSON bodies and HTTP responses *)
(* ===================================================================== *)

#[warnings="-register-all"]
Inductive Json : Type :=
| JNull
| JBool (b : bool)
| JStr (s : string)
| JDate (ms : N)                       (* [d.toISOString()] of the date [d] *)
| JArr (items : list Json)
| JObj (fields : list (string * Json)).

Record Response : Type := mkResponse { status : N; body : Json }.

(** [res.json(v)] answers 200; [res.status(c).json(v)] answers [c]. *)
Definition json (v : Json) : Response := mkResponse 200 v.
Definition status_json (c : N) (v : Json) : Response := mkResponse c v.
Definition error_json (c : N) (msg : string) : Response :=
  status_json c (JObj [("error", JStr msg)]).

(* ===================================================================== *)
(** ** The store: documents, collections, unique indexes, queries *)
(* ===================================================================== *)

Module Mongo.

(** An ObjectId in its hexadecimal string form ([_id.toString()]).  The
    identifiers requests carry are taken to be well-formed ObjectIds, and
    the other request fields to be strings or absent: what mongoose does
    when it cannot cast a value is outside the model. *)
Definition ObjectId := string.

(** models/AvailableSlot *)
Record AvailableSlot : Type := mkSlot {
  slot_id : ObjectId;              (* _id *)
  slot_date : string;
  slot_time : string;
  slot_isAvailable : option bool   (* absent on a document stored without it *)
}.

(** models/Booking *)
Record Booking : Type := mkBooking {
  booking_id : ObjectId;           (* _id *)
  slotId : ObjectId;
  date : string;
  time : string;
  clientName : string;
  clientEmail : string;
  clientPhone : string;
  createdAt : N                    (* timestamps: true *)
}.

Record DB : Type := mkDB {
  availableslots : list AvailableSlot;
  bookings : list Booking
}.

(** An error thrown by the driver: [error.code] and [error.message]. *)
Record MongoError : Type := mkError { code : option N; message : string }.

Definition E11000 : MongoError :=
  mkError (Some 11000) "E11000 duplicate key error collection".

Definition Res (A : Type) : Type := A + MongoError.

(** [sort({ date: 1, time: 1 })]: ascending on [date], then on [time]. *)
Definition key_le (k1 k2 : string * string) : bool :=
  if String.eqb (fst k1) (fst k2) then JS.le (snd k1) (snd k2)
  else JS.le (fst k1) (fst k2).

Section Sort.
Context {A : Type} (key : A -> string * string).

Fixpoint insert_sorted (x : A) (l : list A) : list A :=
  match l with
  | [] => [x]
  | y :: l' =>
      if key_le (key x) (key y) then x :: y :: l'
      else y :: insert_sorted x l'
  end.

(** The documents of a collection in ascending key order; documents
    with equal keys keep their collection order. *)
Fixpoint sort (l : list A) : list A :=
  match l with
  | [] => []
  | x :: l' => insert_sorted x (sort l')
  end.
End Sort.

Definition slot_key (s : AvailableSlot) : string * string :=
  (slot_date s, slot_time s).
Definition booking_key (b : Booking) : string * string := (date b, time b).

(** [AvailableSlot.findOne({ date, time })] *)
Definition slot_findOne (d t : string) (db : DB) : option AvailableSlot :=
  List.find (fun s => String.eqb (slot_date s) d && String.eqb (slot_time s) t)
            (availableslots db).

(** [AvailableSlot.findById(id)] *)
Definition slot_findById (id : ObjectId) (db : DB) : option AvailableSlot :=
  List.find (fun s => String.eqb (slot_id s) id) (availableslots db).

(** [Booking.findOne({ slotId })] *)
Definition booking_findOne (sid : ObjectId) (db : DB) : option Booking :=
  List.find (fun b => String.eqb (slotId b) sid) (bookings db).

(** [Booking.findById(id)] *)
Definition booking_findById (id : ObjectId) (db : DB) : option Booking :=
  List.find (fun b => String.eqb (booking_id b) id) (bookings db).

(** [newSlot.save()]: the unique index [{ date: 1, time: 1 }] rejects a
    second document with the same pair. *)
Definition slot_save (s : AvailableSlot) (db : DB) : Res AvailableSlot * DB :=
  match slot_findOne (slot_date s) (slot_time s) db with
  | Some _ => (inr E11000, db)
  | None => (inl s, mkDB (availableslots db ++ [s]) (bookings db))
  end.

(** [newBooking.save()]: the unique index [{ slotId: 1 }] rejects a
    second document with the same [slotId]; [createdAt] is stamped when
    the document is written. *)
Definition booking_save (now : N) (b : Booking) (db : DB) : Res Booking * DB :=
  match booking_findOne (slotId b) db with
  | Some _ => (inr E11000, db)
  | None =>
      let saved := mkBooking (booking_id b) (slotId b) (date b) (time b)
                             (clientName b) (clientEmail b) (clientPhone b) now in
      (inl saved, mkDB (availableslots db) (bookings db ++ [saved]))
  end.

(** Removal of the first document matching [p]. *)
Fixpoint remove_first {A : Type} (p : A -> bool) (l : list A) : list A :=
  match l with
  | [] => []
  | x :: l' => if p x then l' else x :: remove_first p l'
  end.

(** [AvailableSlot.findByIdAndDelete(id)] *)
Definition slot_findByIdAndDelete (id : ObjectId) (db : DB)
  : option AvailableSlot * DB :=
  match slot_findById id db with
  | Some s =>
      (Some s, mkDB (remove_first (fun s => String.eqb (slot_id s) id)
                                  (availableslots db))
                    (bookings db))
  | None => (None, db)
  end.

(** [Booking.findByIdAndDelete(id)] *)
Definition booking_findByIdAndDelete (id : ObjectId) (db : DB)
  : option Booking * DB :=
  match booking_findById id db with
  | Some b =>
      (Some b, mkDB (availableslots db)
                    (remove_first (fun b => String.eqb (booking_id b) id)
                                  (bookings db)))
  | None => (None, db)
  end.

(** The unique indexes declared by the two schemas. *)
Definition indexes_hold (db : DB) : Prop :=
  List.NoDup (map slot_key (availableslots db)) /\ List.NoDup (map slotId (bookings db)).

End Mongo.

(* ===================================================================== *)
(** ** Handlers as trees of awaited store calls *)
(* ===================================================================== *)

Import Mongo.

(** One constructor per query the handlers await; the continuation is the
    rest of the [async] function, resumed with the value the promise
    resolves to ([inl]) or the error it rejects with ([inr]). *)
Inductive Prog (R : Type) : Type :=
| Ret (r : R)
| SlotFind (sorted : bool) (k : Res (list AvailableSlot) -> Prog R)
| SlotFindOne (d t : string) (k : Res (option AvailableSlot) -> Prog R)
| SlotFindById (id : ObjectId) (k : Res (option AvailableSlot) -> Prog R)
| SlotSave (s : AvailableSlot) (k : Res AvailableSlot -> Prog R)
| SlotFindByIdAndDelete (id : ObjectId) (k : Res (option AvailableSlot) -> Prog R)
| BookingFind (sorted : bool) (k : Res (list Booking) -> Prog R)
| BookingFindOne (sid : ObjectId) (k : Res (option Booking) -> Prog R)
| BookingSave (b : Booking) (k : Res Booking -> Prog R)
| BookingFindByIdAndDelete (id : ObjectId) (k : Res (option Booking) -> Prog R).

Arguments Ret {R} r.
Arguments SlotFind {R} sorted k.
Arguments SlotFindOne {R} d t k.
Arguments SlotFindById {R} id k.
Arguments SlotSave {R} s k.
Arguments SlotFindByIdAndDelete {R} id k.
Arguments BookingFind {R} sorted k.
Arguments BookingFindOne {R} sid k.
Arguments BookingSave {R} b k.
Arguments BookingFindByIdAndDelete {R} id k.

(** [const x = await q] inside [try { ... } catch (error) { ... }]: on a
    rejection control passes to the [catch] block. *)
Definition try_await {A R : Type} (catch : MongoError -> Prog R)
    (r : Res A) (k : A -> Prog R) : Prog R :=
  match r with
  | inl x => k x
  | inr e => catch e
  end.

(** One store call of a suspended handler, performed at clock time [now]:
    the new store and the resumed handler.  [None] when the handler has
    already answered.  The store serves every query; the one rejection it
    issues is the duplicate-key error of a unique index. *)
Definition resume {R : Type} (now : N) (p : Prog R) (db : DB) : option (Prog R * DB) :=
  match p with
  | Ret _ => None
  | SlotFind sorted k =>
      let l := availableslots db in
      Some (k (inl (if sorted then sort slot_key l else l)), db)
  | SlotFindOne d t k => Some (k (inl (slot_findOne d t db)), db)
  | SlotFindById id k => Some (k (inl (slot_findById id db)), db)
  | SlotSave s k => let '(r, db') := slot_save s db in Some (k r, db')
  | SlotFindByIdAndDelete id k =>
      let '(r, db') := slot_findByIdAndDelete id db in Some (k (inl r), db')
  | BookingFind sorted k =>
      let l := bookings db in
      Some (k (inl (if sorted then sort booking_key l else l)), db)
  | BookingFindOne sid k => Some (k (inl (booking_findOne sid db)), db)
  | BookingSave b k => let '(r, db') := booking_save now b db in Some (k r, db')
  | BookingFindByIdAndDelete id k =>
      let '(r, db') := booking_findByIdAndDelete id db in Some (k (inl r), db')
  end.

(** A handler run to its answer with no other request in between. *)
Fixpoint run {R : Type} (now : N) (p : Prog R) (db : DB) : R * DB :=
  match p with
  | Ret r => (r, db)
  | SlotFind sorted k =>
      let l := availableslots db in
      run now (k (inl (if sorted then sort slot_key l else l))) db
  | SlotFindOne d t k => run now (k (inl (slot_findOne d t db))) db
  | SlotFindById id k => run now (k (inl (slot_findById id db))) db
  | SlotSave s k => let '(r, db') := slot_save s db in run now (k r) db'
  | SlotFindByIdAndDelete id k =>
      let '(r, db') := slot_findByIdAndDelete id db in run now (k (inl r)) db'
  | BookingFind sorted k =>
      let l := bookings db in
      run now (k (inl (if sorted then sort booking_key l else l))) db
  | BookingFindOne sid k => run now (k (inl (booking_findOne sid db))) db
  | BookingSave b k => let '(r, db') := booking_save now b db in run now (k r) db'
  | BookingFindByIdAndDelete id k =>
      let '(r, db') := booking_findByIdAndDelete id db in run now (k (inl r)) db'
  end.

(* ===================================================================== *)
(** ** server/index.js *)
(* ===================================================================== *)

(** [const ADMIN_PASSWORD = process.env.ADMIN_PASSWORD || 'admin123'] *)
Definition ADMIN_PASSWORD (env_ADMIN_PASSWORD : option string) : string :=
  JS.orElse env_ADMIN_PASSWORD "admin123".

(** [mongoose.connection.readyState !== 1] *)
Definition not_connected (readyState : N) : bool := negb (readyState =? 1).

Definition DB_DOWN_DE : string :=
  "Datenbank nicht verbunden. Bitte MongoDB-Verbindung überprüfen.".

(** *** Middleware to check admin authentication *)

Definition requireAdmin (adminSessions : gset string)
    (authorization : option string) (next : Prog Response) : Prog Response :=
  if negb (JS.truthy authorization) then
    Ret (error_json 401 "Nicht autorisiert. Admin-Zugriff erforderlich.")
  else
    let sessionToken := JS.replace "Bearer " "" (default "" authorization) in
    if negb (bool_decide (sessionToken ∈ adminSessions)) then
      Ret (error_json 401 "Nicht autorisiert. Admin-Zugriff erforderlich.")
    else next.

(** *** GET /api/available-slots *)

Definition formatSlot (slot : AvailableSlot) : Json :=
  JObj [("id", JStr (slot_id slot));
        ("date", JStr (slot_date slot));
        ("time", JStr (slot_time slot));
        ("isAvailable", JBool (match slot_isAvailable slot with
                               | Some b => b
                               | None => true
                               end))].

Definition get_available_slots (readyState : N) : Prog Response :=
  let catch := fun _ : MongoError => Ret (status_json 200 (JArr [])) in
  if not_connected readyState then Ret (json (JArr []))
  else
    SlotFind true (fun r => try_await catch r (fun slots =>
    let formattedSlots := map formatSlot slots in
    Ret (json (JArr formattedSlots)))).

(** *** POST /api/admin/login *)

(** [Date.now().toString() + Math.random().toString(36).substr(2, 9)];
    [now] is the value of [Date.now()] and [random36] the string
    [Math.random().toString(36)]. *)
Definition newSessionToken (now : N) (random36 : string) : string :=
  JS.toString now ++ JS.substr 2 9 random36.

Definition post_admin_login (env_ADMIN_PASSWORD : option string)
    (adminSessions : gset string) (password : option string)
    (now : N) (random36 : string) : Response * gset string :=
  if negb (JS.truthy password) then
    (error_json 400 "Passwort ist erforderlich", adminSessions)
  else if bool_decide (password = Some (ADMIN_PASSWORD env_ADMIN_PASSWORD)) then
    let sessionToken := newSessionToken now random36 in
    (json (JObj [("success", JBool true); ("token", JStr sessionToken)]),
     adminSessions ∪ {[sessionToken]})
  else
    (error_json 401 "Ungültiges Passwort", adminSessions).

(** *** POST /api/admin/logout *)

Definition post_admin_logout (adminSessions : gset string)
    (authorization : option string) : Response * gset string :=
  let sessionToken := JS.replace "Bearer " "" <$> authorization in
  (json (JObj [("success", JBool true)]),
   if JS.truthy sessionToken
   then adminSessions ∖ {[default "" sessionToken]}
   else adminSessions).

(** *** GET /api/admin/check *)

Definition get_admin_check : Prog Response :=
  Ret (json (JObj [("authenticated", JBool true)])).

(** *** POST /api/available-slots *)

Record SlotBody : Type := mkSlotBody {
  body_date : option string;
  body_time : option string
}.

Definition post_available_slots (readyState : N) (body : SlotBody)
    (oid : ObjectId) : Prog Response :=
  let catch := fun error : MongoError =>
    if bool_decide (code error = Some 11000) then
      Ret (error_json 400 "This slot already exists")
    else
      Ret (error_json 500 ("Platz konnte nicht hinzugefügt werden: " ++ message error)) in
  if not_connected readyState then Ret (error_json 503 DB_DOWN_DE)
  else if negb (JS.truthy (body_date body)) || negb (JS.truthy (body_time body)) then
    Ret (error_json 400 "Datum und Uhrzeit sind erforderlich")
  else
    let d := default "" (body_date body) in
    let t := default "" (body_time body) in
    SlotFindOne d t (fun r => try_await catch r (fun existingSlot =>
    match existingSlot with
    | Some _ => Ret (error_json 400 "Dieser Platz existiert bereits")
    | None =>
        let newSlot := mkSlot oid d t (Some true) in
        SlotSave newSlot (fun r => try_await catch r (fun newSlot =>
        Ret (json (JObj [("id", JStr (slot_id newSlot));
                         ("date", JStr (slot_date newSlot));
                         ("time", JStr (slot_time newSlot));
                         ("isAvailable", from_option JBool JNull
                                           (slot_isAvailable newSlot))]))))
    end)).

(** *** DELETE /api/available-slots/:id *)

Definition delete_available_slots (readyState : N) (id : string) : Prog Response :=
  let catch := fun error : MongoError =>
    Ret (error_json 500 ("Platz konnte nicht gelöscht werden: " ++ message error)) in
  if not_connected readyState then Ret (error_json 503 DB_DOWN_DE)
  else
    BookingFindOne id (fun r => try_await catch r (fun booking =>
    match booking with
    | Some _ =>
        Ret (error_json 400 "Platz mit einer Buchung kann nicht gelöscht werden")
    | None =>
        SlotFindByIdAndDelete id (fun r => try_await catch r (fun deletedSlot =>
        match deletedSlot with
        | None => Ret (error_json 404 "Platz nicht gefunden")
        | Some _ => Ret (json (JObj [("message", JStr "Platz erfolgreich gelöscht")]))
        end))
    end)).

(** *** GET /api/bookings *)

Definition formatBooking (booking : Booking) : Json :=
  JObj [("id", JStr (booking_id booking));
        ("slotId", JStr (slotId booking));
        ("date", JStr (date booking));
        ("time", JStr (time booking));
        ("clientName", JStr (clientName booking));
        ("clientEmail", JStr (clientEmail booking));
        ("clientPhone", JStr (clientPhone booking));
        ("createdAt", JDate (createdAt booking))].

Definition get_bookings (readyState : N) : Prog Response :=
  let catch := fun _ : MongoError =>
    Ret (error_json 500 "Buchungen konnten nicht abgerufen werden") in
  if not_connected readyState then Ret (json (JArr []))
  else
    BookingFind true (fun r => try_await catch r (fun bookings =>
    let formattedBookings := map formatBooking bookings in
    Ret (json (JArr formattedBookings)))).

(** *** POST /api/bookings *)

Record BookingBody : Type := mkBookingBody {
  body_slotId : option string;
  body_clientName : option string;
  body_clientEmail : option string;
  body_clientPhone : option string
}.

Definition post_bookings (readyState : N) (body : BookingBody)
    (oid : ObjectId) : Prog Response :=
  let catch := fun error : MongoError =>
    if bool_decide (code error = Some 11000) then
      Ret (error_json 400 "This slot is already booked")
    else
      Ret (error_json 500 ("Buchung konnte nicht erstellt werden: " ++ message error)) in
  if not_connected readyState then
    Ret (error_json 503 "Database not connected. Please try again later.")
  else if negb (JS.truthy (body_slotId body))
          || negb (JS.truthy (body_clientName body))
          || negb (JS.truthy (body_clientEmail body)) then
    Ret (error_json 400 "Platz-ID, Kundenname und E-Mail sind erforderlich")
  else
    let sid := default "" (body_slotId body) in
    SlotFindById sid (fun r => try_await catch r (fun slot =>
    match slot with
    | None => Ret (error_json 404 "Platz nicht gefunden")
    | Some slot =>
        BookingFindOne sid (fun r => try_await catch r (fun existingBooking =>
        match existingBooking with
        | Some _ => Ret (error_json 400 "Dieser Platz ist bereits gebucht")
        | None =>
            let newBooking :=
              mkBooking oid sid (slot_date slot) (slot_time slot)
                        (default "" (body_clientName body))
                        (default "" (body_clientEmail body))
                        (JS.orElse (body_clientPhone body) "")
                        0 (* createdAt is set by save *) in
            BookingSave newBooking (fun r => try_await catch r (fun newBooking =>
            Ret (json (formatBooking newBooking))))
        end))
    end)).

(** *** DELETE /api/bookings/:id *)

Definition delete_bookings (readyState : N) (id : string) : Prog Response :=
  let catch := fun error : MongoError =>
    Ret (error_json 500 ("Buchung konnte nicht storniert werden: " ++ message error)) in
  if not_connected readyState then Ret (error_json 503 DB_DOWN_DE)
  else
    BookingFindByIdAndDelete id (fun r => try_await catch r (fun deletedBooking =>
    match deletedBooking with
    | None => Ret (error_json 404 "Buchung nicht gefunden")
    | Some _ => Ret (json (JObj [("message", JStr "Buchung erfolgreich storniert")]))
    end)).

(** *** GET /api/bookable-slots *)

(** [new Set(bookings.map(b => b.slotId.toString()))] *)
Definition bookedSlotIds (bookings : list Booking) : gset string :=
  list_to_set (map slotId bookings).

Definition bookableSlots (allSlots : list AvailableSlot)
    (bookings : list Booking) : list Json :=
  map (fun slot => JObj [("id", JStr (slot_id slot));
                         ("date", JStr (slot_date slot));
                         ("time", JStr (slot_time slot));
                         ("isAvailable", JBool true)])
      (List.filter (fun slot =>
                      negb (bool_decide (slot_id slot ∈ bookedSlotIds bookings)))
                   allSlots).

(** [Promise.all] of the two reads: two store calls, then the join; a
    rejection of either one passes control to the [catch] block. *)
Definition get_bookable_slots (readyState : N) : Prog Response :=
  let catch := fun _ : MongoError => Ret (json (JArr [])) in
  if not_connected readyState then Ret (json (JArr []))
  else
    SlotFind false (fun r1 =>
    BookingFind false (fun r2 =>
    try_await catch r1 (fun allSlots =>
    try_await catch r2 (fun bookings =>
    Ret (json (JArr (bookableSlots allSlots bookings))))))).

(** *** GET /api/all-slots-status *)

Definition clientInfo (booking : Booking) : Json :=
  JObj [("clientName", JStr (clientName booking));
        ("clientEmail", JStr (clientEmail booking));
        ("clientPhone", JStr (clientPhone booking))].

(** [bookings.forEach(booking => bookingMap.set(...))]: a later booking
    of the same slot overwrites an earlier one.  The guard
    [if (booking.slotId)] holds for every stored Booking ([slotId] is
    required), and [x || ''] is [x] on a string. *)
Definition bookingMap (bookings : list Booking) : gmap string Json :=
  fold_left (fun m booking => <[slotId booking := clientInfo booking]> m)
            bookings ∅.

Definition slotsWithStatus (allSlots : list AvailableSlot)
    (bookings : list Booking) : list Json :=
  map (fun slot =>
         let booking := bookingMap bookings !! slot_id slot in
         JObj [("id", JStr (slot_id slot));
               ("date", JStr (slot_date slot));
               ("time", JStr (slot_time slot));
               ("isBooked", JBool (bool_decide (is_Some booking)));
               ("booking", default JNull booking)])
      allSlots.

Definition get_all_slots_status (readyState : N) : Prog Response :=
  let catch := fun _ : MongoError => Ret (status_json 200 (JArr [])) in
  if not_connected readyState then Ret (json (JArr []))
  else
    SlotFind true (fun r1 =>
    BookingFind false (fun r2 =>
    try_await catch r1 (fun allSlots =>
    try_await catch r2 (fun bookings =>
    Ret (json (JArr (slotsWithStatus allSlots bookings))))))).

(* ===================================================================== *)
(** ** The running server: requests interleaved at their awaits *)
(* ===================================================================== *)

Record Process : Type := mkProcess {
  env_ADMIN_PASSWORD : option string;   (* process.env.ADMIN_PASSWORD *)
  readyState : N;                       (* mongoose.connection.readyState *)
  adminSessions : gset string
}.

Inductive Request : Type :=
| GET_available_slots
| POST_admin_login (password : option string)
| POST_admin_logout (authorization : option string)
| GET_admin_check (authorization : option string)
| POST_available_slots (authorization : option string) (body : SlotBody)
| DELETE_available_slots (authorization : option string) (id : string)
| GET_bookings (authorization : option string)
| POST_bookings (body : BookingBody)
| DELETE_bookings (authorization : option string) (id : string)
| GET_bookable_slots
| GET_all_slots_status.

(** What the environment hands to a handler when it starts: the clock
    [Date.now()], the string [Math.random().toString(36)] and the
    ObjectId a [new Model(...)] would receive. *)
Record Env : Type := mkEnv { env_now : N; env_random36 : string; env_oid : ObjectId }.

(** The synchronous first segment of the route matched by [req]: the
    handler suspended at its first await (or already answered), and the
    session set it leaves. *)
Definition accept (p : Process) (req : Request) (e : Env)
  : Prog Response * gset string :=
  let sessions := adminSessions p in
  let rs := readyState p in
  match req with
  | GET_available_slots => (get_available_slots rs, sessions)
  | POST_admin_login password =>
      let '(res, sessions') := post_admin_login (env_ADMIN_PASSWORD p) sessions password
                                         (env_now e) (env_random36 e) in
      (Ret res, sessions')
  | POST_admin_logout authorization =>
      let '(res, sessions') := post_admin_logout sessions authorization in (Ret res, sessions')
  | GET_admin_check authorization =>
      (requireAdmin sessions authorization get_admin_check, sessions)
  | POST_available_slots authorization body =>
      (requireAdmin sessions authorization (post_available_slots rs body (env_oid e)), sessions)
  | DELETE_available_slots authorization id =>
      (requireAdmin sessions authorization (delete_available_slots rs id), sessions)
  | GET_bookings authorization =>
      (requireAdmin sessions authorization (get_bookings rs), sessions)
  | POST_bookings body => (post_bookings rs body (env_oid e), sessions)
  | DELETE_bookings authorization id =>
      (requireAdmin sessions authorization (delete_bookings rs id), sessions)
  | GET_bookable_slots => (get_bookable_slots rs, sessions)
  | GET_all_slots_status => (get_all_slots_status rs, sessions)
  end.

Record System : Type := mkSystem {
  process : Process;
  db : DB;
  inflight : list (Prog Response)       (* handlers suspended at an await *)
}.

Inductive Event : Type :=
| Arrive (req : Request) (e : Env)      (* a request reaches its route *)
| Resume (i : nat) (now : N)            (* the store serves the call handler [i] awaits *)
| Reply (i : nat)                       (* the answer of handler [i] is sent *)
| Connection (state : N).               (* the connection state changes *)

Definition step (s : System) (ev : Event) : option System :=
  match ev with
  | Arrive req e =>
      if JS.radix36_string (env_random36 e) then
        let '(h, sessions') := accept (process s) req e in
        Some (mkSystem (mkProcess (env_ADMIN_PASSWORD (process s))
                                  (readyState (process s)) sessions')
                       (db s) (inflight s ++ [h]))
      else None
  | Resume i now =>
      h ← inflight s !! i;
      '(h', db') ← resume now h (db s);
      Some (mkSystem (process s) db' (<[i := h']> (inflight s)))
  | Reply i =>
      match inflight s !! i with
      | Some (Ret _) => Some (mkSystem (process s) (db s) (delete i (inflight s)))
      | _ => None
      end
  | Connection state =>
      Some (mkSystem (mkProcess (env_ADMIN_PASSWORD (process s)) state
                                (adminSessions (process s)))
                     (db s) (inflight s))
  end.

Fixpoint exec (s : System) (trace : list Event) : option System :=
  match trace with
  | [] => Some s
  | ev :: trace' => s' ← step s ev; exec s' trace'
  end.

(** The server starts with no session and no request in flight, on a
    store whose collections satisfy their unique indexes. *)
Definition initial (s : System) : Prop :=
  adminSessions (process s) = ∅ /\ inflight s = [] /\ indexes_hold (db s).

Definition reachable (s : System) : Prop :=
  exists s0 trace, initial s0 /\ exec s0 trace = Some s.

(* ===================================================================== *)
(** ** Vocabulary of the specification *)
(* ===================================================================== *)

(** The canonical form of an ObjectId, the one [_id.toString()] yields: 24
    hexadecimal digits in lower case.  A request id of this form is cast
    by mongoose to the ObjectId it denotes, so comparing it with the stored
    ids is what the query does.  For any other string the cast rejects
    (CastError) or folds the case of the digits; the queries of [Mongo]
    do not model that, and the statements about an id that matches no
    document are made for canonical ids. *)
Definition hex_digit (c : ascii) : bool :=
  let n := N_of_ascii c in
  ((48 <=? n) && (n <=? 57)) || ((97 <=? n) && (n <=? 102)).

Definition canonical_ObjectId (id : string) : bool :=
  Nat.eqb (String.length id) 24 && JS.every hex_digit id.

(** The read operations (ListAllSlots, ListBookableSlots,
    ListAllSlotsWithStatus, ListBookings), the write operations
    (CreateSlot, DeleteSlot, CreateBooking, CancelBooking) and the
    session routes. *)
Inductive Operation : Type := Read | Write | Session.

Definition operation (req : Request) : Operation :=
  match req with
  | GET_available_slots | GET_bookable_slots | GET_all_slots_status
  | GET_bookings _ => Read
  | POST_available_slots _ _ | DELETE_available_slots _ _
  | POST_bookings _ | DELETE_bookings _ _ => Write
  | POST_admin_login _ | POST_admin_logout _ | GET_admin_check _ => Session
  end.

(** The [Authorization] header of a request to a route behind
    [requireAdmin]; [None] for an open route. *)
Definition protected (req : Request) : option (option string) :=
  match req with
  | GET_admin_check a | POST_available_slots a _ | DELETE_available_slots a _
  | GET_bookings a | DELETE_bookings a _ => Some a
  | _ => None
  end.

(** The request comes from the operator: on a protected route its header
    is [Bearer <token>] for a token of the active-session set. *)
Definition from_operator (p : Process) (req : Request) : Prop :=
  match protected req with
  | None => True
  | Some a => exists t, t ∈ adminSessions p /\ a = Some ("Bearer " ++ t)%string
  end.

(** Lexicographic order on the string forms: [a] comes before [b] when,
    after a common prefix, [a] ends and [b] goes on, or the next character
    of [a] has the smaller code. *)
Definition lex_lt (a b : string) : Prop :=
  exists p a' b', a = (p ++ a')%string /\ b = (p ++ b')%string /\
    match a', b' with
    | EmptyString, String _ _ => True
    | String x _, String y _ => N_of_ascii x < N_of_ascii y
    | _, _ => False
    end.

Definition lex_le (a b : string) : Prop := a = b \/ lex_lt a b.

(** Ascending on [(date, time)]. *)
Definition date_time_le (k1 k2 : string * string) : Prop :=
  lex_lt (fst k1) (fst k2) \/ (fst k1 = fst k2 /\ lex_le (snd k1) (snd k2)).

(** Two documents in ascending order of their sort keys. *)
Definition ordered_by {A : Type} (key : A -> string * string) (x y : A) : Prop :=
  date_time_le (key x) (key y).

(** The documents of [l] whose sort key is [k], in the order of [l]. *)
Definition with_key {A : Type} (key : A -> string * string)
    (k : string * string) (l : list A) : list A :=
  List.filter (fun x => String.eqb (fst (key x)) (fst k)
                        && String.eqb (snd (key x)) (snd k)) l.

(** [answers h r]: the handler [h], resumed at each of its awaits against
    whatever the store holds by then, may answer [r]. *)
Inductive answers {R : Type} : Prog R -> R -> Prop :=
| answers_now (r : R) : answers (Ret r) r
| answers_later (now : N) (db db' : DB) (h h' : Prog R) (r : R) :
    resume now h db = Some (h', db') -> answers h' r -> answers h r.

(** A token as [POST /api/admin/login] mints it. *)
Definition minted (t : string) : Prop :=
  exists now random36,
    JS.radix36_string random36 = true /\ t = newSessionToken now random36.



(* ===================================================================== *)
(** ** Further vocabulary: views, integrity, a store that may fail *)
(* ===================================================================== *)

(** [j.name] on a JSON object. *)
Definition field (name : string) (j : Json) : option Json :=
  match j with
  | JObj fields => snd <$> List.find (fun kv => String.eqb (fst kv) name) fields
  | _ => None
  end.

(** Truthiness of a property read from a parsed JSON body. *)
Definition json_truthy (v : option Json) : bool :=
  match v with
  | None | Some JNull => false
  | Some (JBool b) => b
  | Some (JStr s) => JS.truthy (Some s)
  | Some (JDate _) | Some (JArr _) | Some (JObj _) => true
  end.

(** [allSlots.filter(slot => !slot.isBooked)], what the booking page
    keeps of the status view (client/src/components, BookingPage). *)
Definition available (allSlots : list Json) : list Json :=
  List.filter (fun slot => negb (json_truthy (field "isBooked" slot))) allSlots.

(** The entry of [GET /api/bookable-slots] for a slot. *)
Definition bookable_entry (slot : AvailableSlot) : Json :=
  JObj [("id", JStr (slot_id slot)); ("date", JStr (slot_date slot));
        ("time", JStr (slot_time slot)); ("isAvailable", JBool true)].

(** Every Booking references a Slot of the store and carries that Slot's
    date and time. *)
Definition integrity (db : DB) : Prop :=
  forall b, In b (bookings db) ->
            exists s, In s (availableslots db) /\ slot_id s = slotId b
                      /\ date b = slot_date s /\ time b = slot_time s.

(** The ways a request that answers 200 can change the store: one Slot
    added whose pair was free, one unreferenced Slot removed, one Booking
    added on an existing unbooked Slot with that Slot's date and time, one
    Booking removed. *)
Definition effect (db db' : DB) : Prop :=
  (exists s, slot_findOne (slot_date s) (slot_time s) db = None
             /\ db' = mkDB (availableslots db ++ [s]) (bookings db))
  \/ (exists id, booking_findOne id db = None
                 /\ db' = mkDB (remove_first (fun s => String.eqb (slot_id s) id)
                                             (availableslots db))
                               (bookings db))
  \/ (exists b slot, slot_findById (slotId b) db = Some slot
                     /\ date b = slot_date slot /\ time b = slot_time slot
                     /\ booking_findOne (slotId b) db = None
                     /\ db' = mkDB (availableslots db) (bookings db ++ [b]))
  \/ (exists id, db' = mkDB (availableslots db)
                            (remove_first (fun b => String.eqb (booking_id b) id)
                                          (bookings db))).

(** A CreateBooking handler for the slot [sid] that has not answered
    yet, by the call it awaits and what it will do with the result: the
    insert ([at_save]), the lookup of a Booking ([at_check]) or the lookup
    of the Slot ([at_lookup]). *)
Definition at_save (sid : string) (h : Prog Response) : Prop :=
  exists nb k,
    h = BookingSave nb k /\ slotId nb = sid
    /\ (forall saved, exists r, k (inl saved) = Ret r /\ status r = 200)
    /\ (exists r, k (inr E11000) = Ret r /\ status r = 400).

Definition at_check (sid : string) (h : Prog Response) : Prop :=
  exists k,
    h = BookingFindOne sid k
    /\ (forall b, exists r, k (inl (Some b)) = Ret r /\ status r = 400)
    /\ at_save sid (k (inl None)).

Definition at_lookup (sid : string) (h : Prog Response) : Prop :=
  exists k,
    h = SlotFindById sid k /\ forall slot, at_check sid (k (inl (Some slot))).

Definition attempt (sid : string) (h : Prog Response) : Prop :=
  at_lookup sid h \/ at_check sid h \/ at_save sid h.

(** A handler that has answered with status [c]. *)
Definition answered (c : N) (h : Prog Response) : Prop :=
  exists r, h = Ret r /\ status r = c.

(** The body of a CreateBooking request for [sid] that passes validation. *)
Definition books (sid : string) (body : BookingBody) : Prop :=
  body_slotId body = Some sid /\ sid <> ""
  /\ JS.truthy (body_clientName body) = true
  /\ JS.truthy (body_clientEmail body) = true.

(** The pool of attempts on [sid] and the store while they race, [slots]
    and [base] being the Slots and the Bookings held when they started:
    all are pending on a free slot, or one has stored its Booking and
    answered 200 and each of the others is pending or has answered 400. *)
Definition racing (sid : string) (slots : list AvailableSlot)
    (base : list Booking) (s : System) : Prop :=
  availableslots (db s) = slots
  /\ ((bookings (db s) = base /\ Forall (attempt sid) (inflight s))
      \/ (exists b i h,
            slotId b = sid /\ bookings (db s) = base ++ [b]
            /\ inflight s !! i = Some h /\ answered 200 h
            /\ forall j h', j <> i -> inflight s !! j = Some h' ->
                            attempt sid h' \/ answered 400 h')).

Definition is_resume (ev : Event) : Prop :=
  match ev with Resume _ _ => True | _ => False end.

(** The handler [h] when the call it awaits rejects with [e]. *)
Definition reject {R : Type} (h : Prog R) (e : MongoError) : option (Prog R) :=
  match h with
  | Ret _ => None
  | SlotFind _ k | SlotFindOne _ _ k | SlotFindById _ k
  | SlotFindByIdAndDelete _ k => Some (k (inr e))
  | SlotSave _ k => Some (k (inr e))
  | BookingFind _ k | BookingFindOne _ k
  | BookingFindByIdAndDelete _ k => Some (k (inr e))
  | BookingSave _ k => Some (k (inr e))
  end.

(** [outcome h errors r]: [h] may answer [r] when each awaited call is
    either served by the store (whatever it holds by then) or rejected;
    [errors] lists the errors of the rejected calls, in order. *)
Inductive outcome {R : Type} : Prog R -> list MongoError -> R -> Prop :=
| outcome_answer (r : R) : outcome (Ret r) [] r
| outcome_served (now : N) (db db' : DB) (h h' : Prog R)
    (errors : list MongoError) (r : R) :
    resume now h db = Some (h', db') -> outcome h' errors r -> outcome h errors r
| outcome_rejected (e : MongoError) (h h' : Prog R)
    (errors : list MongoError) (r : R) :
    reject h e = Some h' -> outcome h' errors r -> outcome h (e :: errors) r.

(** All the outcomes of a handler, by case analysis on each store call. *)
Ltac outcome_inv :=
  repeat match goal with
         | H : outcome (Ret _) _ _ |- _ =>
             inversion H; subst; clear H; try discriminate
         | H : outcome (if ?c then _ else _) _ _ |- _ => destruct c eqn:?
         | H : outcome _ _ _ |- _ =>
             let Hr := fresh "Hr" in
             let Ho := fresh "Ho" in
             inversion H as [|? ? ? ? ? ? ? Hr Ho|? ? ? ? ? Hr Ho]; subst; clear H;
             [ simpl in Hr; unfold booking_save, slot_save,
                 slot_findByIdAndDelete, booking_findByIdAndDelete in Hr;
               simpl in Hr;
               repeat match type of Hr with
                      | context [match ?x with Some _ => _ | None => _ end] =>
                          destruct x
                      end;
               try discriminate Hr; injection Hr as <- <-; simpl in Ho
             | simpl in Hr; injection Hr as <-; simpl in Ho ]
         end.

(* ===================================================================== *)
(** ** Facts about the store queries *)
(* ===================================================================== *)

Section FindFacts.
Context {A : Type} (p : A -> bool).

Lemma find_None_iff (l : list A) :
  List.find p l = None <-> (forall x, In x l -> p x = false).
Proof.
  split.
  - intros H x Hx. exact (find_none p l H x Hx).
  - induction l as [|y l IH]; intros H; simpl; [reflexivity|].
    rewrite (H y (or_introl eq_refl)). apply IH.
    intros x Hx. apply H. now right.
Qed.

Lemma find_Some_iff (l : list A) :
  (exists y, List.find p l = Some y) <-> (exists x, In x l /\ p x = true).
Proof.
  split.
  - intros [y Hy]. exists y. exact (find_some p l Hy).
  - intros [x [Hx Hp]]. destruct (List.find p l) as [y|] eqn:E; [now exists y|].
    rewrite (proj1 (find_None_iff l) E x Hx) in Hp. discriminate.
Qed.

Lemma remove_first_incl (l : list A) (x : A) :
  In x (remove_first p l) -> In x l.
Proof.
  induction l as [|y l IH]; simpl; [tauto|].
  destruct (p y); simpl; intuition.
Qed.

Lemma remove_first_NoDup {B : Type} (f : A -> B) (l : list A) :
  List.NoDup (map f l) -> List.NoDup (map f (remove_first p l)).
Proof.
  induction l as [|y l IH]; simpl; intros H; [exact H|].
  apply NoDup_cons_iff in H as [Hy Hl].
  destruct (p y); [exact Hl|]. simpl. apply NoDup_cons_iff. split; [|auto].
  intros Hin. apply Hy. apply in_map_iff in Hin as [z [Hz Hin]].
  apply in_map_iff. exists z. split; [exact Hz|]. now apply remove_first_incl.
Qed.
End FindFacts.

Lemma slot_findById_None (id : ObjectId) (db : DB) :
  slot_findById id db = None <->
  (forall s, In s (availableslots db) -> slot_id s <> id).
Proof.
  unfold slot_findById. rewrite find_None_iff. split; intros H s Hs.
  - apply String.eqb_neq. auto.
  - apply String.eqb_neq. auto.
Qed.

Lemma slot_findById_Some (id : ObjectId) (db : DB) (s : AvailableSlot) :
  slot_findById id db = Some s -> In s (availableslots db) /\ slot_id s = id.
Proof.
  unfold slot_findById. intros H. apply find_some in H as [Hin Heq].
  split; [exact Hin|]. now apply String.eqb_eq.
Qed.


(** With unique [_id]s the lookup returns the one Slot of that id. *)
Lemma slot_findById_unique (id : ObjectId) (db : DB) (s : AvailableSlot) :
  List.NoDup (map slot_id (availableslots db)) ->
  In s (availableslots db) -> slot_id s = id -> slot_findById id db = Some s.
Proof.
  unfold slot_findById. generalize (availableslots db) as l.
  induction l as [|x l IH]; simpl; intros Hnd Hin He; [contradiction|].
  apply NoDup_cons_iff in Hnd as [Hx Hl].
  destruct (String.eqb_spec (slot_id x) id) as [E|E].
  - destruct Hin as [->|Hin]; [reflexivity|].
    exfalso. apply Hx. rewrite E, <- He. now apply in_map.
  - destruct Hin as [->|Hin]; [contradiction|]. auto.
Qed.

Lemma booking_findOne_None (sid : ObjectId) (db : DB) :
  booking_findOne sid db = None <->
  (forall b, In b (bookings db) -> slotId b <> sid).
Proof.
  unfold booking_findOne. rewrite find_None_iff. split; intros H b Hb.
  - apply String.eqb_neq. auto.
  - apply String.eqb_neq. auto.
Qed.

Lemma booking_findOne_Some (sid : ObjectId) (db : DB) :
  (exists b, booking_findOne sid db = Some b) <->
  (exists b, In b (bookings db) /\ slotId b = sid).
Proof.
  unfold booking_findOne. rewrite find_Some_iff.
  split; intros [b [Hb He]]; exists b; (split; [exact Hb|]).
  - now apply String.eqb_eq.
  - now apply String.eqb_eq.
Qed.

Lemma slot_findOne_None (d t : string) (db : DB) :
  slot_findOne d t db = None <->
  (forall s, In s (availableslots db) -> slot_key s <> (d, t)).
Proof.
  unfold slot_findOne, slot_key. rewrite find_None_iff. split; intros H s Hs.
  - intros [= Hd Ht]. specialize (H s Hs). rewrite Hd, Ht in H.
    now rewrite !String.eqb_refl in H.
  - apply andb_false_iff.
    destruct (String.eqb_spec (slot_date s) d) as [Hd|Hd]; [|now left].
    destruct (String.eqb_spec (slot_time s) t) as [Ht|Ht]; [|now right].
    exfalso. apply (H s Hs). now rewrite Hd, Ht.
Qed.

Lemma slot_findOne_Some (d t : string) (db : DB) :
  (exists s, slot_findOne d t db = Some s) <->
  (exists s, In s (availableslots db) /\ slot_date s = d /\ slot_time s = t).
Proof.
  unfold slot_findOne. rewrite find_Some_iff.
  split; intros [s [Hs He]]; exists s; (split; [exact Hs|]).
  - apply andb_true_iff in He as [Hd Ht].
    split; now apply String.eqb_eq.
  - destruct He as [-> ->]. now rewrite !String.eqb_refl.
Qed.

(** A string property is truthy exactly when it is present and non-empty. *)
Lemma truthy_Some (v : option string) :
  JS.truthy v = true <-> exists s, v = Some s /\ s <> "".
Proof.
  destruct v as [[|c s]|]; simpl; split; try discriminate.
  - intros [s [[= <-] H]]. now contradiction H.
  - intros _. now exists (String c s).
  - reflexivity.
  - intros [s [[=] _]].
Qed.

Lemma truthy_false (v : option string) :
  JS.truthy v = false <-> v = None \/ v = Some "".
Proof.
  destruct v as [[|c s]|]; simpl; split; auto; try discriminate.
  intros [[=]|[=]].
Qed.

(* ===================================================================== *)
(** ** CreateBooking, DeleteSlot, CreateSlot run without interruption *)
(* ===================================================================== *)

(** C2.  CreateBooking on a connected store.  With [slotId], [clientName]
    or [clientEmail] missing or empty it answers 400 (InvalidInput).
    Otherwise, for a [slotId] in the canonical form of an ObjectId: (1) it
    answers 404 (NotFound) when no Slot has that id; (2) it answers 400
    (Conflict) when a Booking already references the slot; (3) otherwise
    it inserts one Booking whose [date] and [time] are those of the Slot
    and answers with that Booking: its generated id, the slot id, the
    date, the time, the client fields and its creation time.  In the
    failing cases the store is unchanged. *)
Theorem create_booking_algorithm
    (now : N) (db : DB) (body : BookingBody) (oid : ObjectId) :
  let out := run now (post_bookings 1 body oid) db in
  (JS.truthy (body_slotId body) = false
   \/ JS.truthy (body_clientName body) = false
   \/ JS.truthy (body_clientEmail body) = false ->
   out = (error_json 400 "Platz-ID, Kundenname und E-Mail sind erforderlich", db))
  /\
  (forall sid name email,
     body_slotId body = Some sid -> canonical_ObjectId sid = true ->
     body_clientName body = Some name -> name <> "" ->
     body_clientEmail body = Some email -> email <> "" ->
     ((forall s, In s (availableslots db) -> slot_id s <> sid) ->
      out = (error_json 404 "Platz nicht gefunden", db))
     /\
     (forall slot,
        List.find (fun s => String.eqb (slot_id s) sid) (availableslots db)
        = Some slot ->
        ((exists b, In b (bookings db) /\ slotId b = sid) ->
         out = (error_json 400 "Dieser Platz ist bereits gebucht", db))
        /\
        ((forall b, In b (bookings db) -> slotId b <> sid) ->
         let phone := JS.orElse (body_clientPhone body) "" in
         let created :=
           mkBooking oid sid (slot_date slot) (slot_time slot) name email
                     phone now in
         out = (json (JObj [("id", JStr oid);
                            ("slotId", JStr sid);
                            ("date", JStr (slot_date slot));
                            ("time", JStr (slot_time slot));
                            ("clientName", JStr name);
                            ("clientEmail", JStr email);
                            ("clientPhone", JStr phone);
                            ("createdAt", JDate now)]),
                mkDB (availableslots db) (bookings db ++ [created]))))).
Proof.
  intros out. subst out. unfold post_bookings. simpl not_connected. cbv iota.
  split.
  - intros H.
    assert (E : negb (JS.truthy (body_slotId body))
                || negb (JS.truthy (body_clientName body))
                || negb (JS.truthy (body_clientEmail body)) = true).
    { destruct H as [H|[H|H]]; rewrite H; simpl;
        rewrite ?orb_true_r; reflexivity. }
    rewrite E. reflexivity.
  - intros sid name email Hs Hc Hn Hn' He He'.
    rewrite Hs, Hn, He.
    destruct sid as [|c1 sid]; [discriminate Hc|]. clear Hc.
    destruct name as [|c2 name]; [contradiction|].
    destruct email as [|c3 email]; [contradiction|].
    simpl JS.truthy. simpl negb. simpl orb. cbv iota. simpl default.
    split.
    + intros Hnone. apply slot_findById_None in Hnone.
      simpl. rewrite Hnone. reflexivity.
    + intros slot Hslot.
      change (slot_findById (String c1 sid) db = Some slot) in Hslot. split.
      * intros Hex. apply booking_findOne_Some in Hex as [b Hb].
        simpl. rewrite Hslot. simpl. rewrite Hb. reflexivity.
      * intros Hfree. apply booking_findOne_None in Hfree.
        simpl. rewrite Hslot. simpl. rewrite Hfree. simpl.
        unfold booking_save. simpl slotId. rewrite Hfree. reflexivity.
Qed.

(** A run of [create_booking_algorithm] on a store with one free slot,
    a second attempt on the slot now booked, and an attempt on an id no
    slot has. *)
Lemma create_booking_algorithm_witness :
  let slot := mkSlot "665b1f0a9d3e2c0017a4b001" "2024-06-01" "09:00" (Some true) in
  let db := mkDB [slot] [] in
  let body := mkBookingBody (Some "665b1f0a9d3e2c0017a4b001") (Some "Jane Doe")
                            (Some "jane@example.com") None in
  let created := mkBooking "665b1f0a9d3e2c0017a4b0b1" "665b1f0a9d3e2c0017a4b001"
                           "2024-06-01" "09:00" "Jane Doe"
                           "jane@example.com" "" 1717225200000 in
  run 1717225200000 (post_bookings 1 body "665b1f0a9d3e2c0017a4b0b1") db
  = (json (JObj [("id", JStr "665b1f0a9d3e2c0017a4b0b1");
                 ("slotId", JStr "665b1f0a9d3e2c0017a4b001");
                 ("date", JStr "2024-06-01"); ("time", JStr "09:00");
                 ("clientName", JStr "Jane Doe");
                 ("clientEmail", JStr "jane@example.com");
                 ("clientPhone", JStr ""); ("createdAt", JDate 1717225200000)]),
     mkDB [slot] [created])
  /\ fst (run 1717225200001 (post_bookings 1 body "665b1f0a9d3e2c0017a4b0b2")
              (mkDB [slot] [created]))
     = error_json 400 "Dieser Platz ist bereits gebucht"
  /\ run 1717225200002
         (post_bookings 1 (mkBookingBody (Some "665b1f0a9d3e2c0017a4b009")
                                         (Some "Jane Doe")
                                         (Some "jane@example.com") None)
                        "665b1f0a9d3e2c0017a4b0b3") db
     = (error_json 404 "Platz nicht gefunden", db).
Proof.
  intros slot db body created. split; [|split].
  - refine (proj2 (proj2 (proj2 (create_booking_algorithm
              1717225200000 db body "665b1f0a9d3e2c0017a4b0b1")
            "665b1f0a9d3e2c0017a4b001" "Jane Doe" "jane@example.com"
            eq_refl eq_refl eq_refl _ eq_refl _)
            slot eq_refl) _); try discriminate.
    intros b [].
  - refine (f_equal fst (proj1 (proj2 (proj2 (create_booking_algorithm
              1717225200001 (mkDB [slot] [created]) body
              "665b1f0a9d3e2c0017a4b0b2")
            "665b1f0a9d3e2c0017a4b001" "Jane Doe" "jane@example.com"
            eq_refl eq_refl eq_refl _ eq_refl _)
            slot eq_refl) _)); try discriminate.
    exists created. split; [now left | reflexivity].
  - refine (proj1 (proj2 (create_booking_algorithm 1717225200002 db
              (mkBookingBody (Some "665b1f0a9d3e2c0017a4b009") (Some "Jane Doe")
                             (Some "jane@example.com") None)
              "665b1f0a9d3e2c0017a4b0b3")
            "665b1f0a9d3e2c0017a4b009" "Jane Doe" "jane@example.com"
            eq_refl eq_refl eq_refl _ eq_refl _) _); try discriminate.
    intros s [<-|[]]. discriminate.
Defined.

(** C5.  DeleteSlot on a connected store.  When a Booking references the
    slot the answer is 400 (Conflict), no delete is issued and the store,
    hence the slot, is left as it was: the handler answers as soon as its
    lookup finds the Booking.  When the id, in the canonical form of an
    ObjectId, is referenced by no Booking and is the id of no Slot, the
    answer is 404 (NotFound). *)
Theorem delete_slot_guarded (now : N) (db : DB) (id : string) :
  let out := run now (delete_available_slots 1 id) db in
  ((exists b, In b (bookings db) /\ slotId b = id) ->
   out = (error_json 400 "Platz mit einer Buchung kann nicht gelöscht werden", db)
   /\ (forall s, In s (availableslots db) -> In s (availableslots (snd out))))
  /\
  (canonical_ObjectId id = true ->
   (forall b, In b (bookings db) -> slotId b <> id) ->
   (forall s, In s (availableslots db) -> slot_id s <> id) ->
   out = (error_json 404 "Platz nicht gefunden", db))
  /\
  (exists k, delete_available_slots 1 id = BookingFindOne id k
             /\ forall b, k (inl (Some b))
                = Ret (error_json 400 "Platz mit einer Buchung kann nicht gelöscht werden")).
Proof.
  intros out. subst out. unfold delete_available_slots. simpl not_connected.
  cbv iota. split; [|split].
  - intros Hex. apply booking_findOne_Some in Hex as [b Hb].
    simpl. rewrite Hb. simpl. split; [reflexivity | auto].
  - intros _ Hfree Hnone. apply booking_findOne_None in Hfree.
    apply slot_findById_None in Hnone.
    simpl. rewrite Hfree. simpl. unfold slot_findByIdAndDelete.
    rewrite Hnone. reflexivity.
  - eexists. split; [reflexivity|]. intros b. reflexivity.
Qed.

(** [delete_slot_guarded] on a booked slot and on an id no document has. *)
Lemma delete_slot_guarded_witness :
  let slot := mkSlot "665b1f0a9d3e2c0017a4b001" "2024-06-01" "09:00" (Some true) in
  let booking := mkBooking "665b1f0a9d3e2c0017a4b0b1" "665b1f0a9d3e2c0017a4b001"
                           "2024-06-01" "09:00" "Jane Doe"
                           "jane@example.com" "" 1717225200000 in
  let db := mkDB [slot] [booking] in
  run 7 (delete_available_slots 1 "665b1f0a9d3e2c0017a4b001") db
  = (error_json 400 "Platz mit einer Buchung kann nicht gelöscht werden", db)
  /\ run 7 (delete_available_slots 1 "665b1f0a9d3e2c0017a4b009") db
     = (error_json 404 "Platz nicht gefunden", db).
Proof.
  intros slot booking db. split.
  - apply (proj1 (delete_slot_guarded 7 db "665b1f0a9d3e2c0017a4b001")).
    exists booking. split; [now left | reflexivity].
  - apply (proj1 (proj2 (delete_slot_guarded 7 db "665b1f0a9d3e2c0017a4b009"))).
    + reflexivity.
    + intros b [<-|[]]. discriminate.
    + intros s [<-|[]]. discriminate.
Defined.

(** C8.  CreateSlot on a connected store.  With [date] or [time] missing
    or empty it answers 400 (InvalidInput).  Otherwise, when a Slot with
    the same (date, time) exists it answers 400 (Conflict) from the
    lookup; when no such Slot exists the slot is inserted and returned
    with [isAvailable] true; and when the lookup found none but the pair
    is in the store by the time of the insert (another request created
    it in between), the unique index rejects the insert and the rejection
    is caught and answered 400 (Conflict), the store left as it was. *)
Theorem create_slot_algorithm
    (now : N) (db : DB) (body : SlotBody) (oid : ObjectId) :
  let out := run now (post_available_slots 1 body oid) db in
  (JS.truthy (body_date body) = false \/ JS.truthy (body_time body) = false ->
   out = (error_json 400 "Datum und Uhrzeit sind erforderlich", db))
  /\
  (forall d t,
     body_date body = Some d -> d <> "" ->
     body_time body = Some t -> t <> "" ->
     ((exists s, In s (availableslots db) /\ slot_date s = d /\ slot_time s = t) ->
      out = (error_json 400 "Dieser Platz existiert bereits", db))
     /\
     ((forall s, In s (availableslots db) -> slot_key s <> (d, t)) ->
      let created := mkSlot oid d t (Some true) in
      out = (json (JObj [("id", JStr oid); ("date", JStr d); ("time", JStr t);
                         ("isAvailable", JBool true)]),
             mkDB (availableslots db ++ [created]) (bookings db)))
     /\
     (exists k, post_available_slots 1 body oid = SlotFindOne d t k
        /\ forall now' db',
             (exists s, In s (availableslots db')
                        /\ slot_date s = d /\ slot_time s = t) ->
             resume now' (k (inl None)) db'
             = Some (Ret (error_json 400 "This slot already exists"), db'))).
Proof.
  intros out. subst out. unfold post_available_slots. simpl not_connected.
  cbv iota. split.
  - intros H.
    assert (E : negb (JS.truthy (body_date body))
                || negb (JS.truthy (body_time body)) = true).
    { destruct H as [H|H]; rewrite H; simpl; rewrite ?orb_true_r; reflexivity. }
    rewrite E. reflexivity.
  - intros d t Hd Hd' Ht Ht'. rewrite Hd, Ht.
    destruct d as [|c1 d]; [contradiction|].
    destruct t as [|c2 t]; [contradiction|].
    simpl JS.truthy. simpl negb. simpl orb. cbv iota. simpl default.
    split; [|split].
    + intros Hex. apply slot_findOne_Some in Hex as [s Hs].
      simpl. rewrite Hs. reflexivity.
    + intros Hfree. apply slot_findOne_None in Hfree.
      simpl. rewrite Hfree. simpl. unfold slot_save. simpl slot_date.
      simpl slot_time. rewrite Hfree. reflexivity.
    + eexists. split; [reflexivity|]. intros now' db' Hex.
      apply slot_findOne_Some in Hex as [s Hs].
      simpl. unfold slot_save. simpl slot_date. simpl slot_time.
      rewrite Hs. reflexivity.
Qed.

(** [create_slot_algorithm] on an empty store, then on the same pair. *)
Lemma create_slot_algorithm_witness :
  let body := mkSlotBody (Some "2024-06-01") (Some "14:30") in
  let created := mkSlot "s1" "2024-06-01" "14:30" (Some true) in
  run 7 (post_available_slots 1 body "s1") (mkDB [] [])
  = (json (JObj [("id", JStr "s1"); ("date", JStr "2024-06-01");
                 ("time", JStr "14:30"); ("isAvailable", JBool true)]),
     mkDB [created] [])
  /\ run 8 (post_available_slots 1 body "s2") (mkDB [created] [])
     = (error_json 400 "Dieser Platz existiert bereits", mkDB [created] []).
Proof.
  intros body created. split.
  - refine (proj1 (proj2 (proj2 (create_slot_algorithm 7 (mkDB [] []) body "s1")
              "2024-06-01" "14:30" eq_refl _ eq_refl _)) _); try discriminate.
    intros s [].
  - refine (proj1 (proj2 (create_slot_algorithm 8 (mkDB [created] []) body "s2")
              "2024-06-01" "14:30" eq_refl _ eq_refl _) _); try discriminate.
    exists created. split; [now left | split; reflexivity].
Defined.

(* ===================================================================== *)
(** ** Session Registry: login *)
(* ===================================================================== *)

Lemma ADMIN_PASSWORD_truthy (env : option string) :
  JS.truthy (Some (ADMIN_PASSWORD env)) = true.
Proof. destruct env as [[|c s]|]; reflexivity. Qed.

Lemma substr_length (start len : nat) (s : string) :
  (String.length (JS.substr start len s) <= len)%nat.
Proof.
  unfold JS.substr. revert start len.
  induction s as [|c s IH]; intros [|start] [|len]; simpl; try lia.
  - specialize (IH 0%nat len). lia.
  - apply (IH start 0%nat).
  - apply (IH start (S len)).
Qed.

(** C6 (as the code has it).  Login answers 400 exactly when the password
    is missing or empty, 401 exactly when it is present, non-empty and
    differs from the configured secret, and 200 exactly when it equals
    the secret.  Whenever the answer is not 200 the active-session set is
    unchanged; on 200 a new token is minted, added to the set and returned
    with [success: true]. *)
Theorem login_outcomes (env : option string) (sessions : gset string)
    (password : option string) (now : N) (random36 : string) :
  let out := post_admin_login env sessions password now random36 in
  (status (fst out) = 400 <-> JS.truthy password = false)
  /\ (status (fst out) = 401 <->
      JS.truthy password = true /\ password <> Some (ADMIN_PASSWORD env))
  /\ (status (fst out) = 200 <-> password = Some (ADMIN_PASSWORD env))
  /\ (status (fst out) <> 200 -> snd out = sessions)
  /\ (status (fst out) = 200 ->
      let sessionToken := newSessionToken now random36 in
      out = (json (JObj [("success", JBool true); ("token", JStr sessionToken)]),
             sessions ∪ {[sessionToken]})).
Proof.
  intros out. subst out. unfold post_admin_login.
  destruct (JS.truthy password) eqn:Ht; simpl negb; cbv iota.
  - case_bool_decide as Hpw; simpl.
    + repeat split; intros; try discriminate; try congruence; try tauto.
    + repeat split; intros; try discriminate; try congruence; try tauto.
  - assert (Hne : password <> Some (ADMIN_PASSWORD env)).
    { intros ->. rewrite ADMIN_PASSWORD_truthy in Ht. discriminate. }
    simpl. repeat split; intros; try discriminate; try congruence; try tauto.
    destruct H as [H _]. discriminate.
Qed.

(** [login_outcomes] on a wrong guess: 401, registry untouched. *)
Lemma login_outcomes_witness :
  let out := post_admin_login None {["1717225200000k2"]} (Some "admin124")
                              1717225200001 "0.4fzyo82mvyr" in
  status (fst out) = 401 /\ snd out = {["1717225200000k2"]}.
Proof.
  intros out.
  pose proof (login_outcomes None {["1717225200000k2"]} (Some "admin124")
                             1717225200001 "0.4fzyo82mvyr")
    as (_ & H401 & _ & Hkeep & _).
  split.
  - apply H401. split; [reflexivity | discriminate].
  - apply Hkeep. vm_compute. discriminate.
Defined.

(** C6, counterexample: a login without a password is answered 400, not
    401 (the session set is untouched all the same). *)
Lemma login_missing_password_is_400 :
  post_admin_login None ∅ None 1717225200000 "0.4fzyo82mvyr"
  = (error_json 400 "Passwort ist erforderlich", ∅)
  /\ status (fst (post_admin_login None ∅ None 1717225200000 "0.4fzyo82mvyr"))
     <> 401.
Proof. split; [reflexivity | discriminate]. Qed.

(** C7 (as the code has it).  The token minted by a successful login is
    the decimal form of the clock reading [Date.now()] followed by at most
    nine characters cut from [Math.random().toString(36)]; it is a
    function of these two values alone. *)
Theorem session_token_shape (env : option string) (sessions : gset string)
    (now : N) (random36 : string) :
  exists suffix,
    fst (post_admin_login env sessions (Some (ADMIN_PASSWORD env)) now random36)
    = json (JObj [("success", JBool true);
                  ("token", JStr (JS.toString now ++ suffix)%string)])
    /\ suffix = JS.substr 2 9 random36
    /\ (String.length suffix <= 9)%nat
    /\ String.prefix (JS.toString now) (JS.toString now ++ suffix)%string = true.
Proof.
  exists (JS.substr 2 9 random36).
  unfold post_admin_login. rewrite ADMIN_PASSWORD_truthy.
  rewrite bool_decide_eq_true_2 by reflexivity. simpl.
  repeat split.
  - apply substr_length.
  - generalize (JS.substr 2 9 random36). generalize (JS.toString now).
    induction s as [|c s IH]; intros s'; simpl.
    + now destruct s'.
    + destruct (ascii_dec c c); [apply IH | contradiction].
Qed.

(** C7, counterexample: the token is a timestamp concatenation.  When
    [Math.random()] yields 0 the token is the clock reading itself, and
    the login of the next millisecond returns its successor; in general
    the first thirteen characters are the clock. *)
Lemma session_token_is_timestamp :
  newSessionToken 1717225200000 "0" = "1717225200000"
  /\ newSessionToken 1717225200001 "0" = "1717225200001"
  /\ newSessionToken 1717225200000 "0.4fzyo82mvyr" = "17172252000004fzyo82mv"
  /\ fst (post_admin_login None ∅ (Some "admin123") 1717225200000 "0")
     = json (JObj [("success", JBool true); ("token", JStr "1717225200000")]).
Proof. repeat split; vm_compute; reflexivity. Qed.

(* ===================================================================== *)
(** ** The authorization gate on a well-formed header *)
(* ===================================================================== *)

Lemma prefix_nil (s : string) : String.prefix "" s = true.
Proof. now destruct s. Qed.

Lemma replace_Bearer_prefix (t : string) :
  JS.replace "Bearer " "" ("Bearer " ++ t) = t.
Proof. simpl. rewrite prefix_nil. reflexivity. Qed.

Lemma requireAdmin_Bearer (sessions : gset string) (t : string)
    (next : Prog Response) :
  t ∈ sessions -> requireAdmin sessions (Some ("Bearer " ++ t)%string) next = next.
Proof.
  intros Ht. unfold requireAdmin.
  change (JS.truthy (Some ("Bearer " ++ t)%string)) with true.
  change (default "" (Some ("Bearer " ++ t)%string)) with ("Bearer " ++ t)%string.
  rewrite replace_Bearer_prefix.
  rewrite bool_decide_eq_true_2 by exact Ht. reflexivity.
Qed.

(* ===================================================================== *)
(** ** Store unreachable *)
(* ===================================================================== *)

Lemma not_connected_true (rs : N) : rs <> 1 -> not_connected rs = true.
Proof. intros H. unfold not_connected. now apply negb_true_iff, N.eqb_neq. Qed.

(** C4.  While [mongoose.connection.readyState] is not 1, a request of
    the operator (or any request to an open route) for a read operation
    is answered with the empty array, and one for a write operation is
    answered 503 (Unavailable).  In both cases the handler answers before
    any store call, so the write is refused, not dropped. *)
Theorem store_unreachable (p : Process) (req : Request) (e : Env)
    (Hdown : readyState p <> 1) (Hop : from_operator p req) :
  match operation req with
  | Read => fst (accept p req e) = Ret (json (JArr []))
  | Write => exists msg, fst (accept p req e) = Ret (error_json 503 msg)
  | Session => True
  end.
Proof.
  apply not_connected_true in Hdown.
  destruct req; simpl in *; try exact I;
    try destruct Hop as (t & Ht & ->); rewrite ?requireAdmin_Bearer by exact Ht.
  - unfold get_available_slots. now rewrite Hdown.
  - unfold post_available_slots. rewrite Hdown. now eexists.
  - unfold delete_available_slots. rewrite Hdown. now eexists.
  - unfold get_bookings. now rewrite Hdown.
  - unfold post_bookings. rewrite Hdown. now eexists.
  - unfold delete_bookings. rewrite Hdown. now eexists.
  - unfold get_bookable_slots. now rewrite Hdown.
  - unfold get_all_slots_status. now rewrite Hdown.
Qed.

(** [store_unreachable] for a cancellation by the logged-in operator while
    the connection is down ([readyState] 0). *)
Lemma store_unreachable_witness :
  let p := mkProcess None 0 {["1717225200000k2"]} in
  exists msg,
    fst (accept p (DELETE_bookings (Some "Bearer 1717225200000k2") "b1")
                (mkEnv 1717225200001 "0.4fzyo82mvyr" "b2"))
    = Ret (error_json 503 msg).
Proof.
  intros p.
  refine (store_unreachable p
            (DELETE_bookings (Some "Bearer 1717225200000k2") "b1")
            (mkEnv 1717225200001 "0.4fzyo82mvyr" "b2") _ _).
  - discriminate.
  - exists "1717225200000k2". split; [|reflexivity].
    vm_compute. reflexivity.
Defined.

(* ===================================================================== *)
(** ** ListBookableSlots *)
(* ===================================================================== *)

Lemma bookedSlotIds_spec (bookings : list Booking) (id : string) :
  id ∈ bookedSlotIds bookings <-> exists b, In b bookings /\ slotId b = id.
Proof.
  unfold bookedSlotIds. rewrite elem_of_list_to_set, list_elem_of_In, in_map_iff.
  split; intros [b [H1 H2]]; exists b; tauto.
Qed.

Lemma unbooked_spec (bookings : list Booking) (id : string) :
  negb (bool_decide (id ∈ bookedSlotIds bookings)) = true
  <-> (forall b, In b bookings -> slotId b <> id).
Proof.
  rewrite negb_true_iff, bool_decide_eq_false, bookedSlotIds_spec.
  split.
  - intros H b Hb He. apply H. now exists b.
  - intros H [b [Hb He]]. exact (H b Hb He).
Qed.

(** C3.  On a connected store ListBookableSlots answers 200 with, in
    collection order, one entry for each Slot that no Booking references
    and no other entry; every entry carries [isAvailable: true]; the store
    is not modified.  The handler issues exactly two reads (all Slots, all
    Bookings) and its answer is the set-based filter [bookableSlots] of
    what the two reads returned, which agrees with scanning the Bookings
    for each slot. *)
Theorem bookable_slots_exact (now : N) (db : DB) :
  let entry := fun slot =>
    JObj [("id", JStr (slot_id slot)); ("date", JStr (slot_date slot));
          ("time", JStr (slot_time slot)); ("isAvailable", JBool true)] in
  let result := bookableSlots (availableslots db) (bookings db) in
  run now (get_bookable_slots 1) db = (json (JArr result), db)
  /\ (forall j, In j result <->
        exists slot, In slot (availableslots db)
                     /\ (forall b, In b (bookings db) -> slotId b <> slot_id slot)
                     /\ j = entry slot)
  /\ result = map entry
                (List.filter
                   (fun slot => forallb (fun b => negb (String.eqb (slotId b) (slot_id slot)))
                                        (bookings db))
                   (availableslots db))
  /\ (exists k1, get_bookable_slots 1 = SlotFind false k1
        /\ forall r1, exists k2, k1 r1 = BookingFind false k2
        /\ forall allSlots bookings, r1 = inl allSlots ->
             k2 (inl bookings) = Ret (json (JArr (bookableSlots allSlots bookings)))).
Proof.
  intros entry result. split; [reflexivity|]. split; [|split].
  - intros j. subst result. unfold bookableSlots. rewrite in_map_iff.
    split.
    + intros [slot [<- Hin]]. apply filter_In in Hin as [Hin Hfree].
      exists slot. split; [exact Hin|]. split; [|reflexivity].
      now apply unbooked_spec.
    + intros [slot [Hin [Hfree ->]]]. exists slot. split; [reflexivity|].
      apply filter_In. split; [exact Hin|]. now apply unbooked_spec.
  - subst result. unfold bookableSlots. f_equal.
    apply List.filter_ext. intros slot.
    apply eq_true_iff_eq. rewrite unbooked_spec, forallb_forall.
    split; intros H b Hb.
    + apply negb_true_iff, String.eqb_neq. auto.
    + apply String.eqb_neq, negb_true_iff. auto.
  - eexists. split; [reflexivity|]. intros r1. eexists. split; [reflexivity|].
    intros allSlots bks ->. reflexivity.
Qed.

(* ===================================================================== *)
(** ** Ordered listings *)
(* ===================================================================== *)

Lemma ascii_compare_refl (c : ascii) : Ascii.compare c c = Eq.
Proof. apply N.compare_refl. Qed.

Lemma compare_Lt_lex (a b : string) : String.compare a b = Lt <-> lex_lt a b.
Proof.
  split.
  - revert b. induction a as [|x a IH]; intros [|y b]; simpl; try discriminate.
    + intros _. exists "", "", (String y b). repeat split.
    + destruct (Ascii.compare x y) eqn:E; try discriminate.
      * apply Ascii.compare_eq_iff in E. subst y. intros H.
        destruct (IH b H) as (p & a' & b' & -> & -> & Hc).
        exists (String x p), a', b'. repeat split. exact Hc.
      * intros _. exists "", (String x a), (String y b). repeat split.
        now apply N.compare_lt_iff.
  - intros (p & a' & b' & -> & -> & Hc).
    induction p as [|c p IH]; simpl.
    + destruct a' as [|x a'], b' as [|y b']; simpl; try contradiction.
      * reflexivity.
      * unfold Ascii.compare. apply N.compare_lt_iff in Hc. now rewrite Hc.
    + now rewrite ascii_compare_refl.
Qed.

Lemma compare_refl (a : string) : String.compare a a = Eq.
Proof.
  induction a as [|c a IH]; simpl; [reflexivity|].
  now rewrite ascii_compare_refl.
Qed.

Lemma leb_lex (a b : string) : JS.le a b = true <-> lex_le a b.
Proof.
  unfold JS.le, String.leb, lex_le. rewrite <- compare_Lt_lex.
  destruct (String.compare a b) eqn:E.
  - apply String.compare_eq_iff in E. tauto.
  - tauto.
  - split; [discriminate|]. intros [->|H]; [|discriminate].
    rewrite compare_refl in E. discriminate.
Qed.

Lemma leb_total (a b : string) : JS.le a b = false -> JS.le b a = true.
Proof.
  unfold JS.le, String.leb. rewrite (String.compare_antisym b a).
  destruct (String.compare a b); simpl; congruence.
Qed.

Lemma leb_refl (a : string) : JS.le a a = true.
Proof. unfold JS.le, String.leb. now rewrite compare_refl. Qed.

Lemma compare_trans_Lt (a b c : string) :
  String.compare a b = Lt -> String.compare b c = Lt -> String.compare a c = Lt.
Proof.
  revert b c. induction a as [|x a IH]; intros [|y b] [|z c]; simpl;
    try discriminate; try reflexivity.
  unfold Ascii.compare.
  destruct (N.compare_spec (N_of_ascii x) (N_of_ascii y)) as [Exy|Exy|Exy];
    try discriminate;
  destruct (N.compare_spec (N_of_ascii y) (N_of_ascii z)) as [Eyz|Eyz|Eyz];
    try discriminate; intros H1 H2.
  - rewrite Exy, Eyz, N.compare_refl. eauto.
  - rewrite Exy. now apply N.compare_lt_iff in Eyz as ->.
  - rewrite <- Eyz. now apply N.compare_lt_iff in Exy as ->.
  - assert (Hxz : N_of_ascii x < N_of_ascii z) by lia.
    now apply N.compare_lt_iff in Hxz as ->.
Qed.

Lemma leb_trans (a b c : string) :
  JS.le a b = true -> JS.le b c = true -> JS.le a c = true.
Proof.
  unfold JS.le, String.leb.
  destruct (String.compare a b) eqn:Eab; try discriminate;
  destruct (String.compare b c) eqn:Ebc; try discriminate; intros _ _.
  - apply String.compare_eq_iff in Eab, Ebc. subst. now rewrite compare_refl.
  - apply String.compare_eq_iff in Eab. subst. now rewrite Ebc.
  - apply String.compare_eq_iff in Ebc. subst. now rewrite Eab.
  - now rewrite (compare_trans_Lt a b c Eab Ebc).
Qed.

Lemma key_le_spec (k1 k2 : string * string) :
  key_le k1 k2 = true <-> date_time_le k1 k2.
Proof.
  unfold key_le, date_time_le.
  destruct (String.eqb_spec (fst k1) (fst k2)) as [E|E].
  - rewrite leb_lex. split; [tauto|]. intros [H|[_ H]]; [|exact H].
    apply compare_Lt_lex in H. rewrite E, compare_refl in H. discriminate.
  - rewrite leb_lex. unfold lex_le. tauto.
Qed.

Lemma key_le_total (k1 k2 : string * string) :
  key_le k1 k2 = false -> key_le k2 k1 = true.
Proof.
  unfold key_le. rewrite (String.eqb_sym (fst k2) (fst k1)).
  destruct (String.eqb (fst k1) (fst k2)); apply leb_total.
Qed.

Lemma key_le_trans (k1 k2 k3 : string * string) :
  key_le k1 k2 = true -> key_le k2 k3 = true -> key_le k1 k3 = true.
Proof.
  unfold key_le.
  destruct (String.eqb_spec (fst k1) (fst k2)) as [E12|E12];
  destruct (String.eqb_spec (fst k2) (fst k3)) as [E23|E23];
  destruct (String.eqb_spec (fst k1) (fst k3)) as [E13|E13];
    try congruence; intros H1 H2.
  - exact (leb_trans _ _ _ H1 H2).
  - exfalso. apply E12. rewrite E13. apply String.leb_antisym; [|exact H2].
    now rewrite <- E13.
  - exact (leb_trans _ _ _ H1 H2).
Qed.

Lemma key_le_refl (k : string * string) : key_le k k = true.
Proof. unfold key_le. rewrite String.eqb_refl. apply leb_refl. Qed.

Section SortFacts.
Context {A : Type} (key : A -> string * string).

Lemma insert_sorted_perm (x : A) (l : list A) :
  Permutation (insert_sorted key x l) (x :: l).
Proof.
  induction l as [|y l IH]; simpl; [reflexivity|].
  destruct (key_le (key x) (key y)); [reflexivity|].
  rewrite IH. apply perm_swap.
Qed.

Lemma sort_perm (l : list A) : Permutation (sort key l) l.
Proof.
  induction l as [|x l IH]; simpl; [reflexivity|].
  rewrite insert_sorted_perm. now apply perm_skip.
Qed.

Lemma insert_sorted_sorted (x : A) (l : list A) :
  StronglySorted (ordered_by key) l ->
  StronglySorted (ordered_by key) (insert_sorted key x l).
Proof.
  induction l as [|y l IH]; simpl; intros Hs.
  - constructor; [constructor | constructor].
  - apply StronglySorted_inv in Hs as [Hl Hy].
    destruct (key_le (key x) (key y)) eqn:E.
    + constructor; [now constructor|]. constructor.
      * now apply key_le_spec.
      * eapply List.Forall_impl; [|exact Hy]. intros z Hz.
        apply key_le_spec. apply key_le_spec in Hz.
        exact (key_le_trans _ _ _ E Hz).
    + constructor; [now apply IH|].
      eapply Permutation_Forall; [symmetry; apply insert_sorted_perm|].
      constructor; [|exact Hy].
      apply key_le_spec. now apply key_le_total.
Qed.

Lemma sort_sorted (l : list A) : StronglySorted (ordered_by key) (sort key l).
Proof.
  induction l as [|x l IH]; simpl; [constructor|].
  now apply insert_sorted_sorted.
Qed.

Lemma with_key_insert (k : string * string) (x : A) (l : list A) :
  with_key key k (insert_sorted key x l) = with_key key k (x :: l).
Proof.
  induction l as [|y l IH]; [reflexivity|]. simpl insert_sorted.
  destruct (key_le (key x) (key y)) eqn:E; [reflexivity|].
  unfold with_key in *. simpl in *. rewrite IH.
  destruct (String.eqb_spec (fst (key x)) (fst k)) as [E1|E1];
  destruct (String.eqb_spec (snd (key x)) (snd k)) as [E2|E2];
  destruct (String.eqb_spec (fst (key y)) (fst k)) as [E3|E3];
  destruct (String.eqb_spec (snd (key y)) (snd k)) as [E4|E4];
    simpl; try reflexivity.
  exfalso. assert (Hk : key x = key y).
  { destruct (key x), (key y); simpl in *; congruence. }
  rewrite Hk, key_le_refl in E. discriminate.
Qed.

Lemma sort_stable (k : string * string) (l : list A) :
  with_key key k (sort key l) = with_key key k l.
Proof.
  induction l as [|x l IH]; [reflexivity|]. simpl sort.
  rewrite with_key_insert. unfold with_key in *. simpl. now rewrite IH.
Qed.
End SortFacts.

(** C9.  On a connected store ListAllSlots answers with every Slot, each
    once, in ascending order of [(date, time)], the order being
    lexicographic on the strings; each entry carries the slot's id, date,
    time and [isAvailable].  ListBookings answers with every Booking, each
    once, in ascending order of [(date, time)], Bookings of the same date
    and time appearing in the order the collection holds them; each entry
    carries the booking's id, slot id, date, time, client fields and
    creation time.  Neither handler reorders what the sorted query
    returned. *)
Theorem listings_ordered (now : N) (db : DB) :
  let slot_entry := fun s =>
    JObj [("id", JStr (slot_id s)); ("date", JStr (slot_date s));
          ("time", JStr (slot_time s));
          ("isAvailable", JBool (match slot_isAvailable s with
                                 | Some a => a
                                 | None => true
                                 end))] in
  let booking_entry := fun b =>
    JObj [("id", JStr (booking_id b)); ("slotId", JStr (slotId b));
          ("date", JStr (date b)); ("time", JStr (time b));
          ("clientName", JStr (clientName b));
          ("clientEmail", JStr (clientEmail b));
          ("clientPhone", JStr (clientPhone b));
          ("createdAt", JDate (createdAt b))] in
  (exists slots,
     run now (get_available_slots 1) db = (json (JArr (map slot_entry slots)), db)
     /\ Permutation slots (availableslots db)
     /\ StronglySorted
          (fun a b => date_time_le (slot_date a, slot_time a)
                                   (slot_date b, slot_time b)) slots)
  /\
  (exists bookings',
     run now (get_bookings 1) db = (json (JArr (map booking_entry bookings')), db)
     /\ Permutation bookings' (bookings db)
     /\ StronglySorted
          (fun a b => date_time_le (date a, time a) (date b, time b)) bookings'
     /\ forall d t,
          List.filter (fun b => String.eqb (date b) d && String.eqb (time b) t)
                      bookings'
          = List.filter (fun b => String.eqb (date b) d && String.eqb (time b) t)
                        (bookings db))
  /\
  (exists k, get_available_slots 1 = SlotFind true k
     /\ forall slots, k (inl slots) = Ret (json (JArr (map slot_entry slots))))
  /\
  (exists k, get_bookings 1 = BookingFind true k
     /\ forall l, k (inl l) = Ret (json (JArr (map booking_entry l)))).
Proof.
  intros slot_entry booking_entry. split; [|split; [|split]].
  - exists (sort slot_key (availableslots db)).
    split; [reflexivity|]. split; [apply sort_perm|].
    exact (sort_sorted slot_key (availableslots db)).
  - exists (sort booking_key (bookings db)).
    split; [reflexivity|]. split; [apply sort_perm|].
    split; [exact (sort_sorted booking_key (bookings db))|].
    intros d t. exact (sort_stable booking_key (d, t) (bookings db)).
  - eexists. split; [reflexivity|]. intros slots. reflexivity.
  - eexists. split; [reflexivity|]. intros l. reflexivity.
Qed.

(* ===================================================================== *)
(** ** The unique indexes under interleaving *)
(* ===================================================================== *)

Lemma NoDup_snoc {A : Type} (l : list A) (x : A) :
  List.NoDup l -> ~ In x l -> List.NoDup (l ++ [x]).
Proof.
  intros Hl Hx. apply (Permutation_NoDup (l := x :: l)).
  - apply Permutation_cons_append.
  - now constructor.
Qed.

Lemma NoDup_map_eq {A B : Type} (f : A -> B) (l : list A) (x y : A) :
  List.NoDup (map f l) -> In x l -> In y l -> f x = f y -> x = y.
Proof.
  induction l as [|z l IH]; simpl; intros Hnd Hx Hy E; [contradiction|].
  apply NoDup_cons_iff in Hnd as [Hz Hl].
  destruct Hx as [->|Hx], Hy as [->|Hy]; auto.
  - exfalso. apply Hz. rewrite E. now apply in_map.
  - exfalso. apply Hz. rewrite <- E. now apply in_map.
Qed.

Lemma slot_save_indexes (s : AvailableSlot) (db : DB) :
  indexes_hold db -> indexes_hold (snd (slot_save s db)).
Proof.
  intros [Hs Hb]. unfold slot_save.
  destruct (slot_findOne (slot_date s) (slot_time s) db) eqn:E; simpl;
    [now split|].
  split; [|exact Hb]. simpl. rewrite map_app. simpl.
  apply NoDup_snoc; [exact Hs|].
  intros Hin. apply in_map_iff in Hin as [s' [Hk Hin]].
  exact (proj1 (slot_findOne_None _ _ _) E s' Hin Hk).
Qed.

Lemma booking_save_indexes (now : N) (b : Booking) (db : DB) :
  indexes_hold db -> indexes_hold (snd (booking_save now b db)).
Proof.
  intros [Hs Hb]. unfold booking_save.
  destruct (booking_findOne (slotId b) db) eqn:E; simpl; [now split|].
  split; [exact Hs|]. simpl. rewrite map_app. simpl.
  apply NoDup_snoc; [exact Hb|].
  intros Hin. apply in_map_iff in Hin as [b' [Hk Hin]].
  exact (proj1 (booking_findOne_None _ _) E b' Hin Hk).
Qed.

(** Whatever handler the store serves next, every unique index still
    holds afterwards. *)
Lemma resume_indexes {R : Type} (now : N) (h h' : Prog R) (db db' : DB) :
  resume now h db = Some (h', db') -> indexes_hold db -> indexes_hold db'.
Proof.
  intros Hr [Hs Hb]. destruct h; simpl in Hr; try discriminate;
    try (injection Hr as _ <-; now split).
  - pose proof (slot_save_indexes s db (conj Hs Hb)) as H.
    destruct (slot_save s db). injection Hr as _ <-. exact H.
  - unfold slot_findByIdAndDelete in Hr.
    destruct (slot_findById id db); injection Hr as _ <-; [|now split].
    split; [|exact Hb]. simpl. now apply remove_first_NoDup.
  - pose proof (booking_save_indexes now b db (conj Hs Hb)) as H.
    destruct (booking_save now b db). injection Hr as _ <-. exact H.
  - unfold booking_findByIdAndDelete in Hr.
    destruct (booking_findById id db); injection Hr as _ <-; [|now split].
    split; [exact Hs|]. simpl. now apply remove_first_NoDup.
Qed.

Lemma step_indexes (s s' : System) (ev : Event) :
  step s ev = Some s' -> indexes_hold (db s) -> indexes_hold (db s').
Proof.
  destruct ev as [req e|i now|i|state]; simpl; intros Hstep Hi.
  - destruct (JS.radix36_string (env_random36 e)); [|discriminate].
    destruct (accept (process s) req e). now injection Hstep as <-.
  - destruct (inflight s !! i) as [h|]; simpl in Hstep; [|discriminate].
    destruct (resume now h (db s)) as [[h' db']|] eqn:E; simpl in Hstep;
      [|discriminate].
    injection Hstep as <-. simpl. exact (resume_indexes _ _ _ _ _ E Hi).
  - destruct (inflight s !! i) as [[]|]; try discriminate.
    now injection Hstep as <-.
  - now injection Hstep as <-.
Qed.

Lemma exec_indexes (trace : list Event) (s s' : System) :
  exec s trace = Some s' -> indexes_hold (db s) -> indexes_hold (db s').
Proof.
  revert s. induction trace as [|ev trace IH]; simpl; intros s Hx Hi.
  - now injection Hx as <-.
  - destruct (step s ev) as [s1|] eqn:E; simpl in Hx; [|discriminate].
    apply (IH s1 Hx). exact (step_indexes _ _ _ E Hi).
Qed.

Lemma reachable_indexes (s : System) : reachable s -> indexes_hold (db s).
Proof.
  intros (s0 & trace & (_ & _ & Hi) & Hx). exact (exec_indexes _ _ _ Hx Hi).
Qed.


(** Every handler does answer: run without interruption it answers
    [fst (run now h db)]. *)
Lemma run_answers {R : Type} (now : N) (h : Prog R) (db : DB) :
  answers h (fst (run now h db)).
Proof.
  revert db. induction h as [r|? k IH|? ? k IH|? k IH|? k IH|? k IH
                             |? k IH|? k IH|? k IH|? k IH]; intros db; simpl.
  - constructor.
  - eapply (answers_later now db); [reflexivity | apply IH].
  - eapply (answers_later now db); [reflexivity | apply IH].
  - eapply (answers_later now db); [reflexivity | apply IH].
  - destruct (slot_save s db) as [r d] eqn:E.
    apply (answers_later now db d _ (k r)); [simpl; now rewrite E | apply IH].
  - destruct (slot_findByIdAndDelete id db) as [r d] eqn:E.
    apply (answers_later now db d _ (k (inl r))); [simpl; now rewrite E | apply IH].
  - eapply (answers_later now db); [reflexivity | apply IH].
  - eapply (answers_later now db); [reflexivity | apply IH].
  - destruct (booking_save now b db) as [r d] eqn:E.
    apply (answers_later now db d _ (k r)); [simpl; now rewrite E | apply IH].
  - destruct (booking_findByIdAndDelete id db) as [r d] eqn:E.
    apply (answers_later now db d _ (k (inl r))); [simpl; now rewrite E | apply IH].
Qed.


(* ===================================================================== *)
(** ** The authorization gate and the tokens in the registry *)
(* ===================================================================== *)

Lemma every_app (p : ascii -> bool) (a b : string) :
  JS.every p (a ++ b) = JS.every p a && JS.every p b.
Proof.
  induction a as [|c a IH]; simpl; [reflexivity|].
  now rewrite IH, andb_assoc.
Qed.

Lemma substr_every (p : ascii -> bool) (start len : nat) (s : string) :
  JS.every p s = true -> JS.every p (JS.substr start len s) = true.
Proof.
  unfold JS.substr. revert start len.
  induction s as [|c s IH]; intros [|start] [|len]; simpl; auto;
    intros H; apply andb_true_iff in H as [Hc Hs]; auto.
  rewrite Hc. simpl. auto.
Qed.

Lemma string_of_uint_digits (d : Decimal.uint) :
  JS.radix36_string (NilEmpty.string_of_uint d) = true.
Proof. induction d; simpl; auto. Qed.

Lemma toString_digits (n : N) : JS.radix36_string (JS.toString n) = true.
Proof.
  unfold JS.toString, NilZero.string_of_uint.
  destruct (N.to_uint n) eqn:E; try reflexivity;
    rewrite <- E; apply string_of_uint_digits.
Qed.

Lemma toString_nonempty (n : N) : JS.toString n <> "".
Proof.
  unfold JS.toString, NilZero.string_of_uint.
  destruct (N.to_uint n); simpl; discriminate.
Qed.

Lemma minted_radix36 (t : string) : minted t -> JS.radix36_string t = true.
Proof.
  intros (now & r & Hr & ->). unfold newSessionToken, JS.radix36_string.
  rewrite every_app. apply andb_true_iff. split.
  - apply toString_digits.
  - now apply substr_every.
Qed.

Lemma minted_nonempty (t : string) : minted t -> t <> "".
Proof.
  intros (now & r & _ & ->). unfold newSessionToken.
  pose proof (toString_nonempty now) as H.
  destruct (JS.toString now); [contradiction | discriminate].
Qed.

Lemma radix36_not_B (c : ascii) : JS.radix36_char c = true -> "B"%char <> c.
Proof. intros H <-. discriminate H. Qed.

Lemma replace_cons_ne (c0 : ascii) (pat r : string) (c : ascii) (s : string) :
  c0 <> c ->
  JS.replace (String c0 pat) r (String c s)
  = String c (JS.replace (String c0 pat) r s).
Proof.
  intros Hne. simpl. destruct (ascii_dec c0 c); [contradiction | reflexivity].
Qed.

(** Over a stretch without the letter [B] the search for [Bearer ] moves
    on. *)
Lemma replace_skip (a s : string) :
  JS.radix36_string a = true ->
  JS.replace "Bearer " "" (a ++ s) = (a ++ JS.replace "Bearer " "" s)%string.
Proof.
  induction a as [|c a IH]; intros H; [reflexivity|].
  apply andb_true_iff in H as [Hc Ha].
  change (String c a ++ s)%string with (String c (a ++ s)).
  rewrite replace_cons_ne by now apply radix36_not_B.
  rewrite (IH Ha). reflexivity.
Qed.

Lemma append_nil_r (a : string) : (a ++ "")%string = a.
Proof.
  induction a as [|c a IH]; [reflexivity|].
  change (String c (a ++ "") = String c a). now rewrite IH.
Qed.

Lemma replace_radix36 (a : string) :
  JS.radix36_string a = true -> JS.replace "Bearer " "" a = a.
Proof.
  intros H. rewrite <- (append_nil_r a) at 1.
  rewrite (replace_skip a "" H).
  change (JS.replace "Bearer " "" "") with "". apply append_nil_r.
Qed.

Lemma replace_Bearer_inside (a b : string) :
  JS.radix36_string a = true ->
  JS.replace "Bearer " "" (a ++ "Bearer " ++ b) = (a ++ b)%string.
Proof.
  intros H. rewrite (replace_skip a _ H). now rewrite replace_Bearer_prefix.
Qed.

(** Only login adds to the registry, and what it adds is minted. *)
Lemma accept_sessions (p : Process) (req : Request) (e : Env) :
  JS.radix36_string (env_random36 e) = true ->
  (forall t, t ∈ adminSessions p -> minted t) ->
  forall t, t ∈ snd (accept p req e) -> minted t.
Proof.
  intros Hr Hinv t. destruct req; simpl; auto.
  - unfold post_admin_login.
    destruct (negb (JS.truthy password)); simpl; auto.
    case_bool_decide; simpl; auto.
    intros [Ht|Ht]%elem_of_union; auto.
    apply elem_of_singleton in Ht as ->.
    now exists (env_now e), (env_random36 e).
  - unfold post_admin_logout.
    destruct (JS.truthy _); simpl; auto.
    intros [Ht _]%elem_of_difference. auto.
Qed.

Lemma step_sessions (s s' : System) (ev : Event) :
  step s ev = Some s' ->
  (forall t, t ∈ adminSessions (process s) -> minted t) ->
  forall t, t ∈ adminSessions (process s') -> minted t.
Proof.
  destruct ev as [req e|i now|i|state]; simpl; intros Hstep Hinv.
  - destruct (JS.radix36_string (env_random36 e)) eqn:Hr; [|discriminate].
    pose proof (accept_sessions (process s) req e Hr Hinv) as H.
    destruct (accept (process s) req e). now injection Hstep as <-.
  - destruct (inflight s !! i) as [h|]; simpl in Hstep; [|discriminate].
    destruct (resume now h (db s)) as [[h' db']|]; simpl in Hstep;
      [|discriminate].
    now injection Hstep as <-.
  - destruct (inflight s !! i) as [[]|]; try discriminate.
    now injection Hstep as <-.
  - now injection Hstep as <-.
Qed.

Lemma reachable_sessions (s : System) :
  reachable s -> forall t, t ∈ adminSessions (process s) -> minted t.
Proof.
  intros (s0 & trace & (Hs0 & _ & _) & Hx).
  assert (H0 : forall t, t ∈ adminSessions (process s0) -> minted t).
  { intros t. rewrite Hs0. intros Ht. now apply not_elem_of_empty in Ht. }
  clear Hs0. revert s0 Hx H0.
  induction trace as [|ev trace IH]; simpl; intros s0 Hx H0.
  - now injection Hx as <-.
  - destruct (step s0 ev) as [s1|] eqn:E; simpl in Hx; [|discriminate].
    apply (IH s1 Hx). exact (step_sessions _ _ _ E H0).
Qed.

Lemma requireAdmin_replace (sessions : gset string) (h : string)
    (next : Prog Response) :
  h <> "" -> JS.replace "Bearer " "" h ∈ sessions ->
  requireAdmin sessions (Some h) next = next.
Proof.
  intros Hne Hin. unfold requireAdmin.
  destruct h as [|c h]; [contradiction|].
  change (JS.truthy (Some (String c h))) with true.
  change (default "" (Some (String c h))) with (String c h).
  rewrite bool_decide_eq_true_2 by exact Hin. reflexivity.
Qed.

(** C10.  The gate removes the first occurrence of [Bearer ] from the
    header and looks the rest up in the registry.  For a token [t] of the
    registry of a reachable state: the header [t] alone is authorized; so
    is [t] with [Bearer ] inserted at any position; and so is any
    non-empty header that leaves [t] once its first [Bearer ] is removed.
    Only the first occurrence is removed: [Bearer Bearer t] is refused. *)
Theorem bearer_first_occurrence (s : System) (t : string)
    (next : Prog Response)
    (Hreach : reachable s) (Ht : t ∈ adminSessions (process s)) :
  let gate := requireAdmin (adminSessions (process s)) in
  gate (Some t) next = next
  /\ (forall a b, t = (a ++ b)%string ->
                  gate (Some (a ++ "Bearer " ++ b)%string) next = next)
  /\ (forall h, h <> "" -> JS.replace "Bearer " "" h = t ->
                gate (Some h) next = next)
  /\ gate (Some ("Bearer Bearer " ++ t)%string) next
     = Ret (error_json 401 "Nicht autorisiert. Admin-Zugriff erforderlich.").
Proof.
  intros gate. subst gate.
  pose proof (reachable_sessions s Hreach) as Hinv.
  pose proof (minted_radix36 t (Hinv t Ht)) as Hr.
  pose proof (minted_nonempty t (Hinv t Ht)) as Hne.
  split; [|split; [|split]].
  - apply requireAdmin_replace; [exact Hne|]. now rewrite replace_radix36.
  - intros a b ->. unfold JS.radix36_string in Hr. rewrite every_app in Hr.
    apply andb_true_iff in Hr as [Ha _].
    apply requireAdmin_replace.
    + destruct a; discriminate.
    + now rewrite replace_Bearer_inside.
  - intros h Hh <-. now apply requireAdmin_replace.
  - unfold requireAdmin.
    change (JS.truthy (Some ("Bearer Bearer " ++ t)%string)) with true.
    change (default "" (Some ("Bearer Bearer " ++ t)%string))
      with ("Bearer " ++ ("Bearer " ++ t))%string.
    rewrite replace_Bearer_prefix.
    rewrite bool_decide_eq_false_2; [reflexivity|].
    intros Hin. apply Hinv, minted_radix36 in Hin. discriminate Hin.
Qed.

(** The operator logs in once; [bearer_first_occurrence] for the token
    returned. *)
Lemma bearer_first_occurrence_witness :
  let sessions : gset string := {["17172252000004fzyo82mv"]} in
  requireAdmin sessions (Some "17172252000004fzyo82mv") get_admin_check
  = get_admin_check
  /\ requireAdmin sessions (Some "1717225200000Bearer 4fzyo82mv") get_admin_check
     = get_admin_check
  /\ requireAdmin sessions (Some "Bearer Bearer 17172252000004fzyo82mv")
                  get_admin_check
     = Ret (error_json 401 "Nicht autorisiert. Admin-Zugriff erforderlich.").
Proof.
  intros sessions.
  pose (s0 := mkSystem (mkProcess None 1 ∅) (mkDB [] []) []).
  pose (trace := [Arrive (POST_admin_login (Some "admin123"))
                         (mkEnv 1717225200000 "0.4fzyo82mvyr" "b1")]).
  pose (s := mkSystem (mkProcess None 1 sessions) (mkDB [] [])
               [Ret (json (JObj [("success", JBool true);
                                 ("token", JStr "17172252000004fzyo82mv")]))]).
  assert (Hreach : reachable s).
  { exists s0, trace. split.
    - split; [reflexivity|]. split; [reflexivity|].
      split; simpl; constructor.
    - vm_compute. reflexivity. }
  assert (Ht : "17172252000004fzyo82mv" ∈ adminSessions (process s))
    by (vm_compute; reflexivity).
  destruct (bearer_first_occurrence s "17172252000004fzyo82mv"
              get_admin_check Hreach Ht) as (H1 & H2 & _ & H4).
  split; [exact H1|]. split; [|exact H4].
  exact (H2 "1717225200000" "4fzyo82mv" eq_refl).
Defined.

(* ===================================================================== *)
(** ** Uninterrupted runs are executions of the server *)
(* ===================================================================== *)

Lemma run_resume {R : Type} (now : N) (h : Prog R) (db : DB) :
  match resume now h db with
  | None => exists r, h = Ret r /\ run now h db = (r, db)
  | Some (h', db') => run now h db = run now h' db'
  end.
Proof.
  destruct h; simpl; eauto.
  - now destruct (slot_save s db).
  - now destruct (slot_findByIdAndDelete id db).
  - now destruct (booking_save now b db).
  - now destruct (booking_findByIdAndDelete id db).
Qed.

Lemma lookup_last_app {A : Type} (l : list A) (x : A) :
  (l ++ [x]) !! length l = Some x.
Proof. induction l as [|y l IH]; simpl; auto. Qed.

Lemma insert_last_app {A : Type} (l : list A) (x y : A) :
  <[length l := y]> (l ++ [x]) = l ++ [y].
Proof. induction l as [|z l IH]; simpl; [reflexivity | now f_equal]. Qed.

Lemma resume_step (now : N) (s : System) (l : list (Prog Response))
    (h h' : Prog Response) (db' : DB) :
  inflight s = l ++ [h] -> resume now h (db s) = Some (h', db') ->
  step s (Resume (length l) now) = Some (mkSystem (process s) db' (l ++ [h'])).
Proof.
  intros Hin Hr. simpl. rewrite Hin, lookup_last_app. simpl.
  rewrite Hr. simpl. now rewrite insert_last_app.
Qed.

(** The handler most recently accepted, served call after call with no
    other event in between, reaches the answer and the store [run]
    computes. *)
Lemma run_exec (now : N) (h : Prog Response) :
  forall (sys : System) (l : list (Prog Response)),
    inflight sys = l ++ [h] ->
    exists n,
      exec sys (repeat (Resume (length l) now) n)
      = Some (mkSystem (process sys) (snd (run now h (db sys)))
                       (l ++ [Ret (fst (run now h (db sys)))])).
Proof.
  induction h as [r|? k IH|? ? k IH|? k IH|? k IH|? k IH
                  |? k IH|? k IH|? k IH|? k IH]; intros sys l Hin.
  1: { exists 0%nat. simpl. destruct sys; simpl in *. now subst. }
  all: match goal with
       | Hi : inflight ?sy = ?l0 ++ [?h0] |- _ =>
           pose proof (run_resume now h0 (db sy)) as Hrr;
           destruct (resume now h0 (db sy)) as [[h' db']|] eqn:E;
           [ pose proof (resume_step now sy l0 h0 h' db' Hi E) as Hst;
             rewrite Hrr; simpl in E
           | exfalso; simpl in E;
             repeat match type of E with
                    | context [let '(_, _) := ?x in _] => destruct x
                    end;
             discriminate E ]
       end.
  all: repeat match type of E with
              | context [let '(_, _) := ?x in _] => destruct x
              end.
  all: injection E as <- <-.
  all: match goal with
       | IH' : forall x sy l0, inflight sy = l0 ++ [?f x] -> _,
         Hs : _ = Some (mkSystem ?p0 ?d0 (?l1 ++ [?f ?y])) |- _ =>
           destruct (IH' y (mkSystem p0 d0 (l1 ++ [f y])) l1 eq_refl) as [n Hn];
           exists (S n); simpl exec; simpl in Hs; rewrite Hs; exact Hn
       end.
Qed.

(* ===================================================================== *)
(** ** Worked examples *)
(* ===================================================================== *)

Example replace_first_only :
  JS.replace "Bearer " "" "Bearer Bearer 1717225200000k2" = "Bearer 1717225200000k2"
  /\ JS.replace "Bearer " "" "1717225200000k2" = "1717225200000k2"
  /\ JS.replace "Bearer " "" "17172Bearer 25200000k2" = "1717225200000k2".
Proof. repeat split. Qed.

Example lexicographic_dates :
  JS.le "2024-06-01" "2024-06-02" = true
  /\ JS.le "2024-06-10" "2024-06-9" = true
  /\ key_le ("2024-06-01", "14:30") ("2024-06-01", "09:00") = false.
Proof. repeat split. Qed.

Example listing_after_booking :
  let s1 := mkSlot "s1" "2024-06-02" "09:00" (Some true) in
  let s2 := mkSlot "s2" "2024-06-01" "14:30" (Some true) in
  let b := mkBooking "b1" "s1" "2024-06-02" "09:00" "Jane Doe"
                     "jane@example.com" "" 1717225200000 in
  let db := mkDB [s1; s2] [b] in
  fst (run 7 (get_bookable_slots 1) db)
  = json (JArr [JObj [("id", JStr "s2"); ("date", JStr "2024-06-01");
                      ("time", JStr "14:30"); ("isAvailable", JBool true)]])
  /\ fst (run 7 (get_available_slots 1) db)
     = json (JArr [formatSlot s2; formatSlot s1])
  /\ fst (run 7 (get_all_slots_status 1) db)
     = json (JArr [JObj [("id", JStr "s2"); ("date", JStr "2024-06-01");
                         ("time", JStr "14:30"); ("isBooked", JBool false);
                         ("booking", JNull)];
                   JObj [("id", JStr "s1"); ("date", JStr "2024-06-02");
                         ("time", JStr "09:00"); ("isBooked", JBool true);
                         ("booking", clientInfo b)]]).
Proof. repeat split; vm_compute; reflexivity. Qed.

(** Cancelling frees the slot: the next listing of bookable slots has it
    again. *)
Example cancel_frees_slot :
  let s1 := mkSlot "s1" "2024-06-02" "09:00" (Some true) in
  let b := mkBooking "b1" "s1" "2024-06-02" "09:00" "Jane Doe"
                     "jane@example.com" "" 1717225200000 in
  let db := mkDB [s1] [b] in
  run 7 (delete_bookings 1 "b1") db
  = (json (JObj [("message", JStr "Buchung erfolgreich storniert")]), mkDB [s1] [])
  /\ fst (run 8 (get_bookable_slots 1) (mkDB [s1] []))
     = json (JArr [JObj [("id", JStr "s1"); ("date", JStr "2024-06-02");
                         ("time", JStr "09:00"); ("isAvailable", JBool true)]]).
Proof. repeat split; vm_compute; reflexivity. Qed.

(* ===================================================================== *)
(** ** Session Registry: login, gate and logout together *)
(* ===================================================================== *)

(** X1.  The token a successful login returns opens the gate: presented
    as [Bearer <token>] right after, the protected handler runs.  Tokens
    registered before stay registered. *)
Theorem login_then_authorized (env : option string) (sessions : gset string)
    (now : N) (random36 : string) (next : Prog Response) :
  let out := post_admin_login env sessions (Some (ADMIN_PASSWORD env))
                              now random36 in
  exists token,
    fst out = json (JObj [("success", JBool true); ("token", JStr token)])
    /\ requireAdmin (snd out) (Some ("Bearer " ++ token)%string) next = next
    /\ (forall t, t ∈ sessions -> t ∈ snd out).
Proof.
  intros out. subst out. exists (newSessionToken now random36).
  unfold post_admin_login. rewrite ADMIN_PASSWORD_truthy.
  rewrite bool_decide_eq_true_2 by reflexivity. simpl.
  split; [reflexivity|]. split.
  - apply requireAdmin_Bearer. set_solver.
  - set_solver.
Qed.

(** X2.  Logout, whatever the header: it answers [success: true] and
    never adds a token.  Without a header, with an empty header, or with
    a header that is [Bearer ] alone, nothing is removed.  When the header,
    with its first [Bearer ] removed, is a non-empty token, that token is
    gone afterwards and the same header is refused by the gate; every
    other token stays, and if the token was not registered the registry
    is as it was. *)
Theorem logout_revokes (sessions : gset string) (authorization : option string)
    (next : Prog Response) :
  let out := post_admin_logout sessions authorization in
  fst out = json (JObj [("success", JBool true)])
  /\ (forall t, t ∈ snd out -> t ∈ sessions)
  /\ (authorization = None
      \/ (exists h, authorization = Some h /\ JS.replace "Bearer " "" h = "") ->
      snd out = sessions)
  /\ (forall h,
        authorization = Some h -> JS.replace "Bearer " "" h <> "" ->
        let token := JS.replace "Bearer " "" h in
        (token ∉ snd out)
        /\ requireAdmin (snd out) (Some h) next
           = Ret (error_json 401 "Nicht autorisiert. Admin-Zugriff erforderlich.")
        /\ (forall t, t ∈ snd out <-> t ∈ sessions /\ t <> token)
        /\ (token ∉ sessions -> snd out = sessions)).
Proof.
  cbv zeta. unfold post_admin_logout. split; [reflexivity|].
  split; [|split].
  - intros t. destruct (JS.truthy _); simpl; [|tauto].
    now intros [Ht _]%elem_of_difference.
  - intros [->|(h & -> & E)]; [reflexivity|]. simpl fmap. now rewrite E.
  - intros h -> Htoken. unfold requireAdmin. simpl fmap.
    assert (Hh : JS.truthy (Some h) = true).
    { destruct h; [|reflexivity]. exfalso. apply Htoken. reflexivity. }
    rewrite Hh. simpl negb. cbv iota.
    change (default "" (Some h)) with h.
    destruct (JS.replace "Bearer " "" h) as [|c tk] eqn:E; [contradiction|].
    simpl JS.truthy. cbv iota.
    change (default "" (Some (String c tk))) with (String c tk). simpl snd.
    assert (Hout : String c tk ∉ sessions ∖ {[String c tk]}).
    { intros [_ Hn]%elem_of_difference. apply Hn. now apply elem_of_singleton. }
    split; [exact Hout|]. split; [|split].
    + rewrite bool_decide_eq_false_2 by exact Hout. reflexivity.
    + intros t. rewrite elem_of_difference, elem_of_singleton. tauto.
    + intros Hnot. apply set_eq. intros t.
      rewrite elem_of_difference, elem_of_singleton. split; [tauto|].
      intros Ht. split; [exact Ht|]. intros ->. contradiction.
Qed.

(** [logout_revokes] for the header a client sends, and for a header that
    is [Bearer ] alone. *)
Lemma logout_revokes_witness :
  let sessions : gset string := {["17172252000004fzyo82mv"]} in
  requireAdmin (snd (post_admin_logout sessions
                       (Some "Bearer 17172252000004fzyo82mv")))
               (Some "Bearer 17172252000004fzyo82mv") get_admin_check
  = Ret (error_json 401 "Nicht autorisiert. Admin-Zugriff erforderlich.")
  /\ snd (post_admin_logout sessions (Some "Bearer ")) = sessions.
Proof.
  intros sessions. split.
  - assert (Hne : JS.replace "Bearer " "" "Bearer 17172252000004fzyo82mv" <> "")
      by discriminate.
    destruct (logout_revokes sessions (Some "Bearer 17172252000004fzyo82mv")
                get_admin_check) as (_ & _ & _ & H).
    exact (proj1 (proj2 (H "Bearer 17172252000004fzyo82mv" eq_refl Hne))).
  - destruct (logout_revokes sessions (Some "Bearer ") get_admin_check)
      as (_ & _ & H & _).
    apply H. right. exists "Bearer ". split; reflexivity.
Defined.

(** X3.  A request to a protected route without a header, with an empty
    header, or with a header whose token is not registered is answered
    401 by the gate: the handler behind it does not run, no store call is
    issued and the registry is unchanged. *)
Theorem unauthorized_is_refused (p : Process) (req : Request) (e : Env)
    (a : option string)
    (Hprot : protected req = Some a)
    (Hno : JS.truthy a = false
           \/ JS.replace "Bearer " "" (default "" a) ∉ adminSessions p) :
  accept p req e
  = (Ret (error_json 401 "Nicht autorisiert. Admin-Zugriff erforderlich."),
     adminSessions p).
Proof.
  assert (Hgate : forall next,
             requireAdmin (adminSessions p) a next
             = Ret (error_json 401 "Nicht autorisiert. Admin-Zugriff erforderlich.")).
  { intros next. unfold requireAdmin. destruct (JS.truthy a); simpl.
    - destruct Hno as [Hno|Hno]; [discriminate|].
      rewrite bool_decide_eq_false_2 by exact Hno. reflexivity.
    - reflexivity. }
  destruct req; simpl in Hprot; try discriminate;
    injection Hprot as ->; simpl; now rewrite Hgate.
Qed.

(** [unauthorized_is_refused] for a cancellation with a guessed token. *)
Lemma unauthorized_is_refused_witness :
  accept (mkProcess None 1 {["17172252000004fzyo82mv"]})
         (DELETE_bookings (Some "Bearer 17172252000004fzyo82mw") "b1")
         (mkEnv 1717225200001 "0.4fzyo82mvyr" "b2")
  = (Ret (error_json 401 "Nicht autorisiert. Admin-Zugriff erforderlich."),
     {["17172252000004fzyo82mv"]}).
Proof.
  refine (unauthorized_is_refused
            (mkProcess None 1 {["17172252000004fzyo82mv"]})
            (DELETE_bookings (Some "Bearer 17172252000004fzyo82mw") "b1")
            (mkEnv 1717225200001 "0.4fzyo82mvyr" "b2")
            (Some "Bearer 17172252000004fzyo82mw") eq_refl _).
  right. vm_compute. discriminate.
Defined.

(** X4.  Whatever the request, the registry afterwards holds only tokens
    it held before and, for a login with the configured password, the
    token just minted: no other route and no failed login adds one. *)
Theorem only_login_registers (p : Process) (req : Request) (e : Env) (t : string)
    (Hin : t ∈ snd (accept p req e)) :
  t ∈ adminSessions p
  \/ (req = POST_admin_login (Some (ADMIN_PASSWORD (env_ADMIN_PASSWORD p)))
      /\ t = newSessionToken (env_now e) (env_random36 e)).
Proof.
  destruct req; simpl in Hin; auto.
  - unfold post_admin_login in Hin.
    destruct (negb (JS.truthy password)); simpl in Hin; auto.
    case_bool_decide as Hpw; simpl in Hin; auto.
    apply elem_of_union in Hin as [Hin|Hin]; auto.
    apply elem_of_singleton in Hin. right. now subst.
  - unfold post_admin_logout in Hin.
    destruct (JS.truthy _); simpl in Hin; auto.
    apply elem_of_difference in Hin as [Hin _]. auto.
Qed.

(** [only_login_registers] for the operator's login. *)
Lemma only_login_registers_witness :
  "17172252000004fzyo82mv" ∈ ({["17172252000004fzyo82mu"]} : gset string)
  \/ (POST_admin_login (Some "admin123")
      = POST_admin_login (Some (ADMIN_PASSWORD None))
      /\ "17172252000004fzyo82mv" = newSessionToken 1717225200000 "0.4fzyo82mvyr").
Proof.
  refine (only_login_registers
            (mkProcess None 1 {["17172252000004fzyo82mu"]})
            (POST_admin_login (Some "admin123"))
            (mkEnv 1717225200000 "0.4fzyo82mvyr" "b1")
            "17172252000004fzyo82mv" _).
  vm_compute. reflexivity.
Defined.

(* ===================================================================== *)
(** ** CancelBooking, DeleteSlot and the views after a change *)
(* ===================================================================== *)

Lemma remove_first_perm {A : Type} (p : A -> bool) (l : list A) (x : A) :
  List.find p l = Some x -> Permutation l (x :: remove_first p l).
Proof.
  induction l as [|y l IH]; simpl; [discriminate|].
  destruct (p y).
  - now intros [= ->].
  - intros H. rewrite (IH H) at 1. apply perm_swap.
Qed.

Lemma booking_findById_None (id : ObjectId) (db : DB) :
  booking_findById id db = None <->
  (forall b, In b (bookings db) -> booking_id b <> id).
Proof.
  unfold booking_findById. rewrite find_None_iff. split; intros H b Hb.
  - apply String.eqb_neq. auto.
  - apply String.eqb_neq. auto.
Qed.

(** The run of CreateBooking that inserts. *)
Lemma post_bookings_created (now : N) (db : DB) (body : BookingBody)
    (oid sid name email : string) (slot : AvailableSlot) :
  body_slotId body = Some sid -> sid <> "" ->
  body_clientName body = Some name -> name <> "" ->
  body_clientEmail body = Some email -> email <> "" ->
  slot_findById sid db = Some slot ->
  (forall b, In b (bookings db) -> slotId b <> sid) ->
  let created := mkBooking oid sid (slot_date slot) (slot_time slot) name email
                           (JS.orElse (body_clientPhone body) "") now in
  run now (post_bookings 1 body oid) db
  = (json (formatBooking created),
     mkDB (availableslots db) (bookings db ++ [created])).
Proof.
  intros Hs Hs' Hn Hn' He He' Hslot Hfree created. subst created.
  apply booking_findOne_None in Hfree.
  unfold post_bookings. simpl not_connected. cbv iota. rewrite Hs, Hn, He.
  destruct sid as [|c1 sid]; [contradiction|].
  destruct name as [|c2 name]; [contradiction|].
  destruct email as [|c3 email]; [contradiction|].
  simpl. rewrite Hslot. simpl. rewrite Hfree. simpl.
  unfold booking_save. simpl slotId. rewrite Hfree. reflexivity.
Qed.

(** The run of CreateSlot that inserts. *)
Lemma post_available_slots_created (now : N) (db : DB) (body : SlotBody)
    (oid d t : string) :
  body_date body = Some d -> d <> "" ->
  body_time body = Some t -> t <> "" ->
  (forall s, In s (availableslots db) -> slot_key s <> (d, t)) ->
  let created := mkSlot oid d t (Some true) in
  run now (post_available_slots 1 body oid) db
  = (json (formatSlot created),
     mkDB (availableslots db ++ [created]) (bookings db)).
Proof.
  intros Hd Hd' Ht Ht' Hfree created. subst created.
  apply slot_findOne_None in Hfree.
  unfold post_available_slots. simpl not_connected. cbv iota. rewrite Hd, Ht.
  destruct d as [|c1 d]; [contradiction|].
  destruct t as [|c2 t]; [contradiction|].
  simpl. rewrite Hfree. simpl. unfold slot_save. simpl slot_date.
  simpl slot_time. rewrite Hfree. reflexivity.
Qed.

(** X5.  CancelBooking on a connected store: when the id, in the
    canonical form of an ObjectId, is the id of no Booking it answers 404
    and changes nothing; when its lookup returns a Booking it answers 200
    and removes exactly that Booking, leaving every other Booking and
    every Slot in place. *)
Theorem cancel_booking (now : N) (db : DB) (id : string) :
  let out := run now (delete_bookings 1 id) db in
  (canonical_ObjectId id = true ->
   (forall b, In b (bookings db) -> booking_id b <> id) ->
   out = (error_json 404 "Buchung nicht gefunden", db))
  /\
  (forall b,
     List.find (fun b => String.eqb (booking_id b) id) (bookings db) = Some b ->
     fst out = json (JObj [("message", JStr "Buchung erfolgreich storniert")])
     /\ availableslots (snd out) = availableslots db
     /\ Permutation (bookings db) (b :: bookings (snd out))
     /\ In b (bookings db) /\ booking_id b = id).
Proof.
  intros out. subst out. unfold delete_bookings. simpl not_connected.
  cbv iota. split.
  - intros _ Hnone. apply booking_findById_None in Hnone.
    simpl. unfold booking_findByIdAndDelete. rewrite Hnone. reflexivity.
  - intros b Hb. change (booking_findById id db = Some b) in Hb.
    simpl. unfold booking_findByIdAndDelete. rewrite Hb. simpl.
    split; [reflexivity|]. split; [reflexivity|]. split.
    + now apply remove_first_perm.
    + unfold booking_findById in Hb. apply find_some in Hb as [Hin He].
      split; [exact Hin | now apply String.eqb_eq].
Qed.

(** [cancel_booking] on the id of a stored booking and on an id no
    booking has. *)
Lemma cancel_booking_witness :
  let slot := mkSlot "665b1f0a9d3e2c0017a4b001" "2024-06-01" "09:00" (Some true) in
  let b := mkBooking "665b1f0a9d3e2c0017a4b0b1" "665b1f0a9d3e2c0017a4b001"
                     "2024-06-01" "09:00" "Jane Doe"
                     "jane@example.com" "" 1717225200000 in
  let db := mkDB [slot] [b] in
  run 7 (delete_bookings 1 "665b1f0a9d3e2c0017a4b0b9") db
  = (error_json 404 "Buchung nicht gefunden", db)
  /\ fst (run 7 (delete_bookings 1 "665b1f0a9d3e2c0017a4b0b1") db)
     = json (JObj [("message", JStr "Buchung erfolgreich storniert")]).
Proof.
  intros slot b db. split.
  - apply (proj1 (cancel_booking 7 db "665b1f0a9d3e2c0017a4b0b9")).
    + reflexivity.
    + intros b0 [<-|[]]. discriminate.
  - exact (proj1 (proj2 (cancel_booking 7 db "665b1f0a9d3e2c0017a4b0b1")
                        b eq_refl)).
Defined.

(** X6.  Cancelling frees the slot at once: on a store whose Bookings
    have distinct [slotId]s, after the Booking found for [id] is
    cancelled, the Slot it referenced is listed by ListBookableSlots. *)
Theorem cancel_then_bookable (now now' : N) (db : DB) (id : string)
    (b : Booking) (slot : AvailableSlot)
    (Hidx : List.NoDup (map slotId (bookings db)))
    (Hb : booking_findById id db = Some b)
    (Hslot : In slot (availableslots db))
    (Href : slot_id slot = slotId b) :
  let db' := snd (run now (delete_bookings 1 id) db) in
  exists entries,
    run now' (get_bookable_slots 1) db' = (json (JArr entries), db')
    /\ In (bookable_entry slot) entries.
Proof.
  intros db'. subst db'. unfold delete_bookings. simpl not_connected.
  cbv iota. simpl. unfold booking_findByIdAndDelete. rewrite Hb. simpl.
  eexists. split; [reflexivity|]. simpl.
  unfold bookableSlots. apply in_map_iff. exists slot. split; [reflexivity|].
  apply filter_In. split; [exact Hslot|]. apply unbooked_spec.
  intros b' Hb' He.
  pose proof (remove_first_perm _ _ _ Hb) as Hp.
  apply (Permutation_map slotId) in Hp. simpl in Hp.
  apply (Permutation_NoDup Hp) in Hidx.
  apply NoDup_cons_iff in Hidx as [Hnot _]. apply Hnot.
  rewrite <- Href, <- He. now apply in_map.
Qed.

(** [cancel_then_bookable] on a store with one booked slot. *)
Lemma cancel_then_bookable_witness :
  let slot := mkSlot "s1" "2024-06-01" "09:00" (Some true) in
  let b := mkBooking "b1" "s1" "2024-06-01" "09:00" "Jane Doe"
                     "jane@example.com" "" 1717225200000 in
  exists entries,
    run 8 (get_bookable_slots 1)
        (snd (run 7 (delete_bookings 1 "b1") (mkDB [slot] [b])))
    = (json (JArr entries), snd (run 7 (delete_bookings 1 "b1") (mkDB [slot] [b])))
    /\ In (bookable_entry slot) entries.
Proof.
  intros slot b.
  refine (cancel_then_bookable 7 8 (mkDB [slot] [b]) "b1" b slot _ eq_refl _ eq_refl).
  - simpl. repeat constructor. intros [].
  - now left.
Defined.

(* ===================================================================== *)
(** ** The status view as a join *)
(* ===================================================================== *)

Lemma bookingMap_snoc (l : list Booking) (b : Booking) :
  bookingMap (l ++ [b]) = <[slotId b := clientInfo b]> (bookingMap l).
Proof. unfold bookingMap. now rewrite fold_left_app. Qed.

(** The map holds, for a slot id, the client of the last Booking of the
    collection that references it. *)
Lemma bookingMap_lookup (l : list Booking) (id : string) :
  bookingMap l !! id
  = clientInfo <$> List.find (fun b => String.eqb (slotId b) id) (rev l).
Proof.
  induction l as [|b l IH] using rev_ind; [reflexivity|].
  rewrite bookingMap_snoc, rev_unit. simpl.
  destruct (String.eqb_spec (slotId b) id) as [E|E].
  - subst id. now rewrite lookup_insert_eq.
  - rewrite lookup_insert_ne by exact E. exact IH.
Qed.

Lemma find_rev_unique {A : Type} (f : A -> string) (id : string) (l : list A) :
  List.NoDup (map f l) ->
  List.find (fun x => String.eqb (f x) id) (rev l)
  = List.find (fun x => String.eqb (f x) id) l.
Proof.
  intros Hnd.
  destruct (List.find _ l) as [x|] eqn:E1;
  destruct (List.find _ (rev l)) as [y|] eqn:E2; try reflexivity.
  - apply find_some in E1 as [Hx Ex]. apply find_some in E2 as [Hy Ey].
    apply in_rev in Hy. apply String.eqb_eq in Ex, Ey.
    f_equal. apply (NoDup_map_eq f l y x Hnd Hy Hx). congruence.
  - apply find_some in E1 as [Hx Ex].
    rewrite (find_none _ _ E2 x) in Ex; [discriminate|].
    now apply in_rev in Hx.
  - apply find_some in E2 as [Hy Ey]. apply in_rev in Hy.
    rewrite (find_none _ _ E1 y Hy) in Ey. discriminate.
Qed.

Lemma bookingMap_None (l : list Booking) (id : string) :
  bookingMap l !! id = None <-> (forall b, In b l -> slotId b <> id).
Proof.
  rewrite bookingMap_lookup, fmap_None, find_None_iff. split; intros H b Hb.
  - apply String.eqb_neq. apply H. now apply in_rev in Hb.
  - apply String.eqb_neq. apply H. now apply in_rev.
Qed.

(** X7.  ListAllSlotsWithStatus on a connected store whose Bookings have
    distinct [slotId]s: the answer has one entry per Slot, in ascending
    order of [(date, time)]; each entry carries the slot's id, date and
    time, [isBooked] telling whether a Booking references the slot, and
    [booking] with that Booking's [clientName], [clientEmail] and
    [clientPhone], or [null].  The store is not modified. *)
Theorem all_slots_status_join (now : N) (db : DB)
    (Hidx : List.NoDup (map slotId (bookings db))) :
  let entry := fun slot =>
    let booking := List.find (fun b => String.eqb (slotId b) (slot_id slot))
                             (bookings db) in
    JObj [("id", JStr (slot_id slot)); ("date", JStr (slot_date slot));
          ("time", JStr (slot_time slot));
          ("isBooked", JBool (match booking with Some _ => true | None => false end));
          ("booking", match booking with
                      | Some b => JObj [("clientName", JStr (clientName b));
                                        ("clientEmail", JStr (clientEmail b));
                                        ("clientPhone", JStr (clientPhone b))]
                      | None => JNull
                      end)] in
  exists slots,
    run now (get_all_slots_status 1) db = (json (JArr (map entry slots)), db)
    /\ Permutation slots (availableslots db)
    /\ StronglySorted
         (fun a b => date_time_le (slot_date a, slot_time a)
                                  (slot_date b, slot_time b)) slots.
Proof.
  intros entry. exists (sort slot_key (availableslots db)).
  split; [|split; [apply sort_perm
                  | exact (sort_sorted slot_key (availableslots db))]].
  simpl. unfold slotsWithStatus. f_equal. f_equal. f_equal.
  apply map_ext. intros slot. subst entry. cbv beta zeta.
  rewrite bookingMap_lookup, (find_rev_unique slotId _ _ Hidx).
  now destruct (List.find _ (bookings db)).
Qed.

(** [all_slots_status_join] on a store with a booked and a free slot. *)
Lemma all_slots_status_join_witness :
  let s1 := mkSlot "665b1f0a9d3e2c0017a4b001" "2024-06-02" "09:00" (Some true) in
  let s2 := mkSlot "665b1f0a9d3e2c0017a4b002" "2024-06-01" "14:30" (Some true) in
  let b := mkBooking "665b1f0a9d3e2c0017a4b0b1" "665b1f0a9d3e2c0017a4b001"
                     "2024-06-02" "09:00" "Jane Doe"
                     "jane@example.com" "" 1717225200000 in
  exists slots,
    run 7 (get_all_slots_status 1) (mkDB [s1; s2] [b])
    = (json (JArr (map (fun slot =>
         let booking := List.find (fun b => String.eqb (slotId b) (slot_id slot))
                                  [b] in
         JObj [("id", JStr (slot_id slot)); ("date", JStr (slot_date slot));
               ("time", JStr (slot_time slot));
               ("isBooked", JBool (match booking with Some _ => true | None => false end));
               ("booking", match booking with
                           | Some b => JObj [("clientName", JStr (clientName b));
                                             ("clientEmail", JStr (clientEmail b));
                                             ("clientPhone", JStr (clientPhone b))]
                           | None => JNull
                           end)]) slots)),
       mkDB [s1; s2] [b])
    /\ Permutation slots [s1; s2]
    /\ StronglySorted
         (fun a b => date_time_le (slot_date a, slot_time a)
                                  (slot_date b, slot_time b)) slots.
Proof.
  intros s1 s2 b.
  refine (all_slots_status_join 7 (mkDB [s1; s2] [b]) _).
  simpl. repeat constructor. intros [].
Defined.

Lemma available_ids (look : string -> option Json) (l : list AvailableSlot) :
  map (field "id")
      (available
         (map (fun slot =>
                 let booking := look (slot_id slot) in
                 JObj [("id", JStr (slot_id slot));
                       ("date", JStr (slot_date slot));
                       ("time", JStr (slot_time slot));
                       ("isBooked", JBool (bool_decide (is_Some booking)));
                       ("booking", default JNull booking)]) l))
  = map (field "id")
        (map bookable_entry
             (List.filter (fun slot => negb (bool_decide (is_Some (look (slot_id slot)))))
                          l)).
Proof.
  unfold available. induction l as [|slot l IH]; [reflexivity|]. simpl.
  destruct (bool_decide (is_Some (look (slot_id slot)))); simpl;
    now rewrite IH.
Qed.

(** X8.  The two availability views agree: what the booking page keeps of
    the status view ([!slot.isBooked]) names the same slots as
    ListBookableSlots.  On the same list of Slots the ids come in the same
    order; between the two routes they agree up to the order, the status
    view being sorted. *)
Theorem views_agree (now : N) (db : DB) :
  (forall allSlots bookings,
     map (field "id") (available (slotsWithStatus allSlots bookings))
     = map (field "id") (bookableSlots allSlots bookings))
  /\
  (exists status bookable,
     run now (get_all_slots_status 1) db = (json (JArr status), db)
     /\ run now (get_bookable_slots 1) db = (json (JArr bookable), db)
     /\ Permutation (map (field "id") (available status))
                    (map (field "id") bookable)).
Proof.
  assert (Hpure : forall allSlots bookings,
     map (field "id") (available (slotsWithStatus allSlots bookings))
     = map (field "id") (bookableSlots allSlots bookings)).
  { intros allSlots bks. unfold slotsWithStatus.
    rewrite (available_ids (fun id => bookingMap bks !! id)).
    unfold bookableSlots, bookable_entry. f_equal. f_equal.
    apply List.filter_ext. intros slot. f_equal.
    apply eq_true_iff_eq. rewrite !bool_decide_eq_true.
    rewrite bookedSlotIds_spec, <- not_eq_None_Some, bookingMap_None.
    split.
    - intros Hn. destruct (booking_findOne (slot_id slot) (mkDB [] bks)) as [b|] eqn:E.
      + apply find_some in E as [Hin He]. exists b. split; [exact Hin|].
        now apply String.eqb_eq.
      + exfalso. apply Hn. now apply (booking_findOne_None _ (mkDB [] bks)).
    - intros [b [Hb He]] Hn. exact (Hn b Hb He). }
  split; [exact Hpure|].
  eexists. eexists. split; [reflexivity|]. split; [reflexivity|].
  rewrite Hpure. unfold bookableSlots.
  apply Permutation_map. apply Permutation_map.
  generalize (sort_perm slot_key (availableslots db)).
  generalize (sort slot_key (availableslots db)) as l'.
  generalize (availableslots db) as l.
  intros l l' Hp. induction Hp; simpl.
  - reflexivity.
  - destruct (negb _); [now apply perm_skip | exact IHHp].
  - destruct (negb _), (negb _); try reflexivity; try apply perm_swap.
  - now transitivity
      (List.filter (fun slot => negb (bool_decide
                      (slot_id slot ∈ bookedSlotIds (bookings db)))) l').
Qed.

(* ===================================================================== *)
(** ** What the views show after a write *)
(* ===================================================================== *)

(** X9.  After a CreateBooking that succeeds (valid fields, a [slotId] in
    the canonical form of an ObjectId, existing and unbooked slot,
    connected store): ListBookableSlots no longer lists any
    slot of that id; ListAllSlotsWithStatus shows the slot as booked with
    the client's name, e-mail and phone; ListBookings lists the new
    Booking with its id, slot id, date, time, client fields and creation
    time. *)
Theorem book_then_views (now now' : N) (db : DB) (body : BookingBody)
    (oid sid name email : string) (slot : AvailableSlot)
    (Hs : body_slotId body = Some sid) (Hs' : canonical_ObjectId sid = true)
    (Hn : body_clientName body = Some name) (Hn' : name <> "")
    (He : body_clientEmail body = Some email) (He' : email <> "")
    (Hslot : List.find (fun s => String.eqb (slot_id s) sid) (availableslots db)
             = Some slot)
    (Hfree : forall b, In b (bookings db) -> slotId b <> sid) :
  let db' := snd (run now (post_bookings 1 body oid) db) in
  let phone := JS.orElse (body_clientPhone body) "" in
  (exists entries,
     run now' (get_bookable_slots 1) db' = (json (JArr entries), db')
     /\ forall j, In j entries -> field "id" j <> Some (JStr sid))
  /\
  (exists status,
     run now' (get_all_slots_status 1) db' = (json (JArr status), db')
     /\ In (JObj [("id", JStr sid); ("date", JStr (slot_date slot));
                  ("time", JStr (slot_time slot));
                  ("isBooked", JBool true);
                  ("booking", JObj [("clientName", JStr name);
                                    ("clientEmail", JStr email);
                                    ("clientPhone", JStr phone)])])
           status)
  /\
  (exists listing,
     run now' (get_bookings 1) db' = (json (JArr listing), db')
     /\ In (JObj [("id", JStr oid); ("slotId", JStr sid);
                  ("date", JStr (slot_date slot));
                  ("time", JStr (slot_time slot));
                  ("clientName", JStr name);
                  ("clientEmail", JStr email);
                  ("clientPhone", JStr phone);
                  ("createdAt", JDate now)])
           listing).
Proof.
  intros db' phone. subst db'.
  assert (Hne : sid <> "") by (intros ->; discriminate Hs').
  change (slot_findById sid db = Some slot) in Hslot.
  rewrite (post_bookings_created now db body oid sid name email slot
             Hs Hne Hn Hn' He He' Hslot Hfree).
  set (created := mkBooking oid sid (slot_date slot) (slot_time slot) name email
                            (JS.orElse (body_clientPhone body) "") now).
  simpl snd.
  destruct (slot_findById_Some _ _ _ Hslot) as [Hin Hid].
  split; [|split].
  - eexists. split; [reflexivity|]. simpl. intros j Hj.
    unfold bookableSlots in Hj. apply in_map_iff in Hj as [slot' [<- Hj]].
    apply filter_In in Hj as [_ Hj].
    pose proof (proj1 (unbooked_spec _ (slot_id slot')) Hj) as Hun.
    simpl. intros [= E]. apply (Hun created).
    + apply in_or_app. right. now left.
    + now rewrite E.
  - eexists. split; [reflexivity|]. simpl.
    unfold slotsWithStatus. apply in_map_iff. exists slot. split.
    + rewrite bookingMap_snoc.
      change (slotId created) with sid. rewrite <- Hid, lookup_insert_eq.
      reflexivity.
    + apply (Permutation_in slot (Permutation_sym (sort_perm slot_key _))).
      exact Hin.
  - eexists. split; [reflexivity|]. simpl.
    change (In (formatBooking created)
               (map formatBooking (sort booking_key (bookings db ++ [created])))).
    apply in_map.
    apply (Permutation_in created (Permutation_sym (sort_perm booking_key _))).
    apply in_or_app. right. now left.
Qed.

(** [book_then_views] for a first booking. *)
Lemma book_then_views_witness :
  let slot := mkSlot "665b1f0a9d3e2c0017a4b001" "2024-06-01" "09:00" (Some true) in
  let body := mkBookingBody (Some "665b1f0a9d3e2c0017a4b001") (Some "Jane Doe")
                            (Some "jane@example.com") None in
  let db' := snd (run 7 (post_bookings 1 body "665b1f0a9d3e2c0017a4b0b1")
                      (mkDB [slot] [])) in
  exists status,
    run 8 (get_all_slots_status 1) db' = (json (JArr status), db')
    /\ In (JObj [("id", JStr "665b1f0a9d3e2c0017a4b001");
                 ("date", JStr "2024-06-01");
                 ("time", JStr "09:00"); ("isBooked", JBool true);
                 ("booking", JObj [("clientName", JStr "Jane Doe");
                                   ("clientEmail", JStr "jane@example.com");
                                   ("clientPhone", JStr "")])])
          status.
Proof.
  intros slot body db'.
  refine (proj1 (proj2 (book_then_views 7 8 (mkDB [slot] []) body
                          "665b1f0a9d3e2c0017a4b0b1" "665b1f0a9d3e2c0017a4b001"
                          "Jane Doe" "jane@example.com" slot
                          eq_refl eq_refl eq_refl _ eq_refl _ eq_refl _)));
    try discriminate.
  intros b [].
Defined.

(** X10.  After a CreateSlot that succeeds (valid fields, pair not yet in
    the store), ListAllSlots lists the new slot with the given date and
    time and [isAvailable] true, next to what it listed before. *)
Theorem create_slot_then_listed (now now' : N) (db : DB) (body : SlotBody)
    (oid d t : string)
    (Hd : body_date body = Some d) (Hd' : d <> "")
    (Ht : body_time body = Some t) (Ht' : t <> "")
    (Hfree : forall s, In s (availableslots db) -> slot_key s <> (d, t)) :
  let db' := snd (run now (post_available_slots 1 body oid) db) in
  let entry := JObj [("id", JStr oid); ("date", JStr d); ("time", JStr t);
                     ("isAvailable", JBool true)] in
  exists before after,
    run now' (get_available_slots 1) db = (json (JArr before), db)
    /\ run now' (get_available_slots 1) db' = (json (JArr after), db')
    /\ In entry after
    /\ Permutation after (entry :: before).
Proof.
  intros db' entry. subst db'.
  rewrite (post_available_slots_created now db body oid d t Hd Hd' Ht Ht' Hfree).
  simpl snd. eexists. eexists. split; [reflexivity|]. split; [reflexivity|].
  simpl.
  assert (Hp : Permutation
                 (map formatSlot (sort slot_key (availableslots db
                                                 ++ [mkSlot oid d t (Some true)])))
                 (entry :: map formatSlot (sort slot_key (availableslots db)))).
  { change entry with (formatSlot (mkSlot oid d t (Some true))).
    rewrite <- map_cons. apply Permutation_map.
    rewrite !sort_perm. symmetry. apply Permutation_cons_append. }
  split; [|exact Hp].
  apply (Permutation_in entry (Permutation_sym Hp)). now left.
Qed.

(** [create_slot_then_listed] on the empty store: one entry. *)
Lemma create_slot_then_listed_witness :
  let body := mkSlotBody (Some "2024-06-01") (Some "14:30") in
  let entry := JObj [("id", JStr "s1"); ("date", JStr "2024-06-01");
                     ("time", JStr "14:30"); ("isAvailable", JBool true)] in
  exists before after,
    run 8 (get_available_slots 1) (mkDB [] []) = (json (JArr before), mkDB [] [])
    /\ run 8 (get_available_slots 1)
           (snd (run 7 (post_available_slots 1 body "s1") (mkDB [] [])))
       = (json (JArr after),
          snd (run 7 (post_available_slots 1 body "s1") (mkDB [] [])))
    /\ In entry after
    /\ Permutation after (entry :: before).
Proof.
  intros body entry.
  refine (create_slot_then_listed 7 8 (mkDB [] []) body "s1"
            "2024-06-01" "14:30" eq_refl _ eq_refl _ _); try discriminate.
  intros s [].
Defined.

Lemma remove_first_keeps {A : Type} (p : A -> bool) (l : list A) (x : A) :
  In x l -> p x = false -> In x (remove_first p l).
Proof.
  induction l as [|y l IH]; simpl; [tauto|].
  intros [->|Hin] Hp.
  - rewrite Hp. now left.
  - destruct (p y); [exact Hin|]. right. auto.
Qed.

(** X11.  DeleteSlot on a connected store, for a slot that exists and
    that no Booking references: it answers 200, removes that Slot and
    nothing else, and leaves the Bookings alone.  With distinct [_id]s no
    Slot of that id is left, so deleting again answers 404. *)
Theorem delete_slot_removes (now now' : N) (db : DB) (id : string)
    (s : AvailableSlot)
    (Hfree : forall b, In b (bookings db) -> slotId b <> id)
    (Hs : slot_findById id db = Some s) :
  let out := run now (delete_available_slots 1 id) db in
  fst out = json (JObj [("message", JStr "Platz erfolgreich gelöscht")])
  /\ bookings (snd out) = bookings db
  /\ Permutation (availableslots db) (s :: availableslots (snd out))
  /\ (List.NoDup (map slot_id (availableslots db)) ->
      (forall s', In s' (availableslots (snd out)) -> slot_id s' <> id)
      /\ run now' (delete_available_slots 1 id) (snd out)
         = (error_json 404 "Platz nicht gefunden", snd out)).
Proof.
  intros out. subst out. apply booking_findOne_None in Hfree.
  assert (Hrun : run now (delete_available_slots 1 id) db
                 = (json (JObj [("message", JStr "Platz erfolgreich gelöscht")]),
                    mkDB (remove_first (fun s => String.eqb (slot_id s) id)
                                       (availableslots db))
                         (bookings db))).
  { unfold delete_available_slots. simpl not_connected. cbv iota. simpl.
    rewrite Hfree. simpl. unfold slot_findByIdAndDelete. rewrite Hs.
    reflexivity. }
  rewrite Hrun. simpl fst. simpl snd.
  pose proof (remove_first_perm _ _ _ Hs) as Hp.
  split; [reflexivity|]. split; [reflexivity|]. split; [exact Hp|].
  intros Hnd.
  assert (Hgone : forall s', In s' (remove_first (fun s => String.eqb (slot_id s) id)
                                                 (availableslots db)) ->
                             slot_id s' <> id).
  { intros s' Hin He.
    apply (Permutation_map slot_id) in Hp. simpl in Hp.
    apply (Permutation_NoDup Hp) in Hnd.
    apply NoDup_cons_iff in Hnd as [Hnot _]. apply Hnot.
    apply slot_findById_Some in Hs as [_ Hid].
    replace (slot_id s) with (slot_id s') by congruence.
    now apply in_map. }
  split; [exact Hgone|].
  unfold delete_available_slots. simpl not_connected. cbv iota. simpl.
  change (booking_findOne id {| availableslots := _; bookings := bookings db |})
    with (booking_findOne id db).
  rewrite Hfree. simpl. unfold slot_findByIdAndDelete.
  rewrite (proj2 (slot_findById_None id (mkDB _ (bookings db))) Hgone).
  reflexivity.
Qed.

(** [delete_slot_removes] on a store with one free slot. *)
Lemma delete_slot_removes_witness :
  let slot := mkSlot "s1" "2024-06-01" "09:00" (Some true) in
  run 7 (delete_available_slots 1 "s1") (mkDB [slot] [])
  = (json (JObj [("message", JStr "Platz erfolgreich gelöscht")]), mkDB [] [])
  /\ Permutation [slot] [slot].
Proof.
  intros slot.
  assert (Hfree : forall b, In b (bookings (mkDB [slot] [])) -> slotId b <> "s1")
    by (intros b []).
  destruct (delete_slot_removes 7 8 (mkDB [slot] []) "s1" slot Hfree eq_refl)
    as (_ & _ & Hp & _).
  split; [reflexivity | exact Hp].
Defined.

(* ===================================================================== *)
(** ** What a request can do to the store *)
(* ===================================================================== *)

Lemma db_eta (db : DB) : mkDB (availableslots db) (bookings db) = db.
Proof. now destruct db. Qed.

Lemma requireAdmin_cases (sessions : gset string) (a : option string)
    (next : Prog Response) :
  requireAdmin sessions a next = next
  \/ requireAdmin sessions a next
     = Ret (error_json 401 "Nicht autorisiert. Admin-Zugriff erforderlich.").
Proof.
  unfold requireAdmin. destruct (negb (JS.truthy a)); [now right|].
  destruct (negb (bool_decide _)); [now right | now left].
Qed.

Lemma post_available_slots_effect (now rs : N) (db : DB) (body : SlotBody)
    (oid : ObjectId) :
  let out := run now (post_available_slots rs body oid) db in
  snd out = db \/ (status (fst out) = 200 /\ effect db (snd out)).
Proof.
  unfold post_available_slots. destruct (not_connected rs); [now left|].
  destruct (negb (JS.truthy (body_date body)) || negb (JS.truthy (body_time body)));
    [now left|].
  simpl. destruct (slot_findOne _ _ db) eqn:E; simpl; [now left|].
  unfold slot_save. simpl slot_date. simpl slot_time. rewrite E. simpl.
  right. split; [reflexivity|]. left.
  match goal with
  | |- context [availableslots db ++ [?s]] => exists s
  end.
  split; [exact E | reflexivity].
Qed.

Lemma delete_available_slots_effect (now rs : N) (db : DB) (id : string) :
  let out := run now (delete_available_slots rs id) db in
  snd out = db \/ (status (fst out) = 200 /\ effect db (snd out)).
Proof.
  unfold delete_available_slots. destruct (not_connected rs); [now left|].
  simpl. destruct (booking_findOne id db) eqn:E; simpl; [now left|].
  unfold slot_findByIdAndDelete. destruct (slot_findById id db); simpl;
    [|now left].
  right. split; [reflexivity|]. right. left. exists id. now split.
Qed.

Lemma post_bookings_effect (now rs : N) (db : DB) (body : BookingBody)
    (oid : ObjectId) :
  let out := run now (post_bookings rs body oid) db in
  snd out = db \/ (status (fst out) = 200 /\ effect db (snd out)).
Proof.
  unfold post_bookings. destruct (not_connected rs); [now left|].
  destruct (negb (JS.truthy (body_slotId body))
            || negb (JS.truthy (body_clientName body))
            || negb (JS.truthy (body_clientEmail body))); [now left|].
  simpl. destruct (slot_findById _ db) as [slot|] eqn:Es; simpl; [|now left].
  destruct (booking_findOne _ db) eqn:Eb; simpl; [now left|].
  unfold booking_save. simpl slotId. rewrite Eb. simpl.
  right. split; [reflexivity|]. right. right. left.
  match goal with
  | |- context [bookings db ++ [?b]] => exists b, slot
  end.
  split; [exact Es|]. split; [reflexivity|]. split; [reflexivity|].
  split; [exact Eb | reflexivity].
Qed.

Lemma delete_bookings_effect (now rs : N) (db : DB) (id : string) :
  let out := run now (delete_bookings rs id) db in
  snd out = db \/ (status (fst out) = 200 /\ effect db (snd out)).
Proof.
  unfold delete_bookings. destruct (not_connected rs); [now left|].
  simpl. unfold booking_findByIdAndDelete.
  destruct (booking_findById id db); simpl; [|now left].
  right. split; [reflexivity|]. right. right. right. now exists id.
Qed.

Lemma read_unchanged (now rs : N) (db : DB) :
  snd (run now (get_available_slots rs) db) = db
  /\ snd (run now (get_bookings rs) db) = db
  /\ snd (run now (get_bookable_slots rs) db) = db
  /\ snd (run now (get_all_slots_status rs) db) = db.
Proof.
  unfold get_available_slots, get_bookings, get_bookable_slots,
    get_all_slots_status.
  destruct (not_connected rs); repeat split.
Qed.

(** Every request, run to its answer, either leaves the store as it was
    or answers 200 and makes one of the four changes of [effect]. *)
Lemma accept_effect (p : Process) (req : Request) (e : Env) (now : N) (db : DB) :
  let out := run now (fst (accept p req e)) db in
  snd out = db \/ (status (fst out) = 200 /\ effect db (snd out)).
Proof.
  pose proof (read_unchanged now (readyState p) db) as (R1 & R2 & R3 & R4).
  destruct req; simpl;
    try (destruct (post_admin_login _ _ _ _ _); now left);
    try (destruct (post_admin_logout _ _); now left);
    try match goal with
        | |- context [requireAdmin ?S ?a ?n] =>
            destruct (requireAdmin_cases S a n) as [-> | ->]; [|now left]
        end;
    auto.
  - apply post_available_slots_effect.
  - apply delete_available_slots_effect.
  - apply post_bookings_effect.
  - apply delete_bookings_effect.
Qed.

(** X12.  A request that is not answered 200 has changed nothing in the
    store, and a read or session request changes nothing whatever it
    answers: a refusal (400, 401, 404, 503) never leaves a partial
    write. *)
Theorem refused_changes_nothing (p : Process) (req : Request) (e : Env)
    (now : N) (db : DB) :
  let out := run now (fst (accept p req e)) db in
  (status (fst out) <> 200 -> snd out = db)
  /\ (operation req <> Write -> snd out = db).
Proof.
  intros out. subst out. split.
  - intros Hst. destruct (accept_effect p req e now db) as [H|[H _]];
      [exact H | contradiction].
  - intros Hop.
    pose proof (read_unchanged now (readyState p) db) as (R1 & R2 & R3 & R4).
    destruct req; simpl in *; try contradiction;
      try (destruct (post_admin_login _ _ _ _ _); reflexivity);
      try (destruct (post_admin_logout _ _); reflexivity);
      try match goal with
          | |- context [requireAdmin ?S ?a ?n] =>
              destruct (requireAdmin_cases S a n) as [-> | ->]; [|reflexivity]
          end;
      auto.
Qed.

Lemma effect_integrity (db db' : DB) :
  effect db db' -> integrity db -> integrity db'.
Proof.
  intros [(s & _ & ->)|[(id & Hfree & ->)
                       |[(b & slot & Hslot & Hd & Ht & _ & ->)|(id & ->)]]]
         Hint b0 Hb0; simpl in *.
  - destruct (Hint b0 Hb0) as (s0 & Hs0 & E). exists s0. split; [|exact E].
    apply in_or_app. now left.
  - destruct (Hint b0 Hb0) as (s0 & Hs0 & E & E'). exists s0.
    split; [|now split].
    apply remove_first_keeps; [exact Hs0|]. apply String.eqb_neq. rewrite E.
    exact (proj1 (booking_findOne_None id db) Hfree b0 Hb0).
  - apply in_app_or in Hb0 as [Hb0|[<-|[]]]; [exact (Hint b0 Hb0)|].
    apply slot_findById_Some in Hslot as [Hin Hid]. now exists slot.
  - apply Hint. now apply remove_first_incl in Hb0.
Qed.

(** X13.  Served one request at a time, the server keeps referential
    integrity: if every Booking references a Slot of the store and carries
    its date and time before a request, so it does after, whatever the
    request. *)
Theorem integrity_kept (p : Process) (req : Request) (e : Env) (now : N)
    (db : DB) (Hint : integrity db) :
  integrity (snd (run now (fst (accept p req e)) db)).
Proof.
  destruct (accept_effect p req e now db) as [H|[_ H]].
  - now rewrite H.
  - exact (effect_integrity _ _ H Hint).
Qed.

(** [integrity_kept] when the operator deletes a free slot next to a
    booked one. *)
Lemma integrity_kept_witness :
  let s1 := mkSlot "s1" "2024-06-01" "09:00" (Some true) in
  let s2 := mkSlot "s2" "2024-06-01" "14:30" (Some true) in
  let b := mkBooking "b1" "s1" "2024-06-01" "09:00" "Jane Doe"
                     "jane@example.com" "" 1717225200000 in
  integrity (mkDB [s1] [b]).
Proof.
  intros s1 s2 b.
  refine (integrity_kept
            (mkProcess None 1 {["17172252000004fzyo82mv"]})
            (DELETE_available_slots (Some "Bearer 17172252000004fzyo82mv") "s2")
            (mkEnv 1717225200001 "0.4fzyo82mvyr" "b2") 7
            (mkDB [s1; s2] [b]) _).
  intros b0 [<-|[]]. exists s1. split; [now left | repeat split].
Defined.

(** X14.  In every state the server can reach, under any interleaving of
    requests, no two Slots have the same [(date, time)] pair. *)
Theorem slot_pairs_unique (s : System) (Hreach : reachable s) :
  List.NoDup (map slot_key (availableslots (db s)))
  /\ (forall s1 s2, In s1 (availableslots (db s)) -> In s2 (availableslots (db s)) ->
                    slot_date s1 = slot_date s2 -> slot_time s1 = slot_time s2 ->
                    s1 = s2).
Proof.
  pose proof (reachable_indexes s Hreach) as [Hs _].
  split; [exact Hs|]. intros s1 s2 H1 H2 Hd Ht.
  apply (NoDup_map_eq slot_key _ _ _ Hs H1 H2). unfold slot_key. congruence.
Qed.

(** The operator creates the same slot twice at once: both lookups find
    nothing, one insert is stored and the other is rejected by the index
    and answered 400.  [slot_pairs_unique] at the state reached. *)
Lemma slot_pairs_unique_witness :
  let body := mkSlotBody (Some "2024-06-01") (Some "14:30") in
  let header := Some "Bearer 17172252000004fzyo82mv" in
  let s0 := mkSystem (mkProcess None 1 ∅) (mkDB [] []) [] in
  let trace := [Arrive (POST_admin_login (Some "admin123"))
                       (mkEnv 1717225200000 "0.4fzyo82mvyr" "x0");
                Reply 0;
                Arrive (POST_available_slots header body)
                       (mkEnv 1717225200100 "0.4fzyo82mvyr" "s1");
                Arrive (POST_available_slots header body)
                       (mkEnv 1717225200101 "0.k2x9d0q1pzz" "s2");
                Resume 0 102; Resume 1 103; Resume 1 104; Resume 0 105] in
  let s := mkSystem (mkProcess None 1 {["17172252000004fzyo82mv"]})
                    (mkDB [mkSlot "s2" "2024-06-01" "14:30" (Some true)] [])
                    [Ret (error_json 400 "This slot already exists");
                     Ret (json (formatSlot
                                  (mkSlot "s2" "2024-06-01" "14:30" (Some true))))] in
  exec s0 trace = Some s
  /\ List.NoDup (map slot_key (availableslots (db s))).
Proof.
  intros body header s0 trace s.
  assert (Hx : exec s0 trace = Some s) by (vm_compute; reflexivity).
  split; [exact Hx|].
  refine (proj1 (slot_pairs_unique s _)).
  exists s0, trace. split; [|exact Hx].
  split; [reflexivity|]. split; [reflexivity|]. split; simpl; constructor.
Defined.

(* ===================================================================== *)
(** ** When the store rejects a call *)
(* ===================================================================== *)

(** X15.  The three public listings never answer with an error: whatever
    the connection state, whatever the store holds and whichever of their
    queries are rejected, ListAllSlots, ListBookableSlots and
    ListAllSlotsWithStatus answer 200 with an array, and with the empty
    array as soon as one query was rejected. *)
Theorem public_reads_never_fail (rs : N) (errors : list MongoError)
    (r : Response)
    (H : outcome (get_available_slots rs) errors r
         \/ outcome (get_bookable_slots rs) errors r
         \/ outcome (get_all_slots_status rs) errors r) :
  status r = 200
  /\ (exists entries, body r = JArr entries)
  /\ (errors <> [] -> body r = JArr []).
Proof.
  unfold get_available_slots, get_bookable_slots, get_all_slots_status in H.
  destruct (not_connected rs); destruct H as [H|[H|H]]; outcome_inv;
    (split; [reflexivity|]); (split; [eexists; reflexivity|]);
    intros Hne; try reflexivity; contradiction.
Qed.

(** [public_reads_never_fail] when the query of ListAllSlots is rejected. *)
Lemma public_reads_never_fail_witness :
  let e := mkError None "connection reset" in
  let r := status_json 200 (JArr []) in
  outcome (get_available_slots 1) [e] r /\ status r = 200 /\ body r = JArr [].
Proof.
  intros e r.
  assert (H : outcome (get_available_slots 1) [e] r).
  { eapply outcome_rejected; [reflexivity|]. simpl. constructor. }
  split; [exact H|].
  destruct (public_reads_never_fail 1 [e] r (or_introl H)) as (H1 & _ & H3).
  split; [exact H1|]. apply H3. discriminate.
Defined.

(** X16.  ListBookings is the listing that does fail: when its query is
    rejected it answers 500 with a fixed message, and otherwise, connected
    or not, it answers 200 with an array. *)
Theorem bookings_listing_outcomes (rs : N) (errors : list MongoError)
    (r : Response) (H : outcome (get_bookings rs) errors r) :
  (errors = [] -> status r = 200 /\ exists entries, body r = JArr entries)
  /\ (errors <> [] ->
      r = error_json 500 "Buchungen konnten nicht abgerufen werden").
Proof.
  unfold get_bookings in H.
  destruct (not_connected rs); outcome_inv; split; intros Hne;
    try discriminate; try contradiction; try reflexivity;
    (split; [reflexivity | eexists; reflexivity]).
Qed.

(** [bookings_listing_outcomes] when the query is rejected. *)
Lemma bookings_listing_outcomes_witness :
  let e := mkError None "connection reset" in
  let r := error_json 500 "Buchungen konnten nicht abgerufen werden" in
  outcome (get_bookings 1) [e] r /\ status r = 500.
Proof.
  intros e r.
  assert (H : outcome (get_bookings 1) [e] r).
  { eapply outcome_rejected; [reflexivity|]. simpl. constructor. }
  split; [exact H|].
  assert (Hne : [e] <> []) by discriminate.
  exact (f_equal status (proj2 (bookings_listing_outcomes 1 [e] r H) Hne)).
Defined.

(** X17.  A write whose store call is rejected never reports success.
    The handler answers at that point: 500 with the error's message, or,
    for CreateSlot and CreateBooking, 400 when the error carries code
    11000; no further call is made, so at most one call of a write is
    ever rejected. *)
Theorem write_failure_is_reported (rs : N) (slot_body : SlotBody)
    (booking_body : BookingBody) (oid : ObjectId) (id : string)
    (h : Prog Response) (e : MongoError) (errors : list MongoError)
    (r : Response)
    (Hh : h = post_available_slots rs slot_body oid
          \/ h = delete_available_slots rs id
          \/ h = post_bookings rs booking_body oid
          \/ h = delete_bookings rs id)
    (H : outcome h (e :: errors) r) :
  errors = []
  /\ status r <> 200
  /\ (status r = 500 \/ (status r = 400 /\ code e = Some 11000)).
Proof.
  destruct Hh as [-> | [-> | [-> | ->]]];
    unfold post_available_slots, delete_available_slots, post_bookings,
      delete_bookings in H.
  - destruct (not_connected rs); [outcome_inv|].
    destruct (negb (JS.truthy (body_date slot_body))
              || negb (JS.truthy (body_time slot_body))); outcome_inv;
      (split; [reflexivity|]); (split; [discriminate|]);
      try (now left);
      right; (split; [reflexivity|]);
      match goal with
      | Hc : bool_decide _ = true |- _ => now apply bool_decide_eq_true in Hc
      end.
  - destruct (not_connected rs); outcome_inv;
      (split; [reflexivity|]); (split; [discriminate | now left]).
  - destruct (not_connected rs); [outcome_inv|].
    destruct (negb (JS.truthy (body_slotId booking_body))
              || negb (JS.truthy (body_clientName booking_body))
              || negb (JS.truthy (body_clientEmail booking_body))); outcome_inv;
      (split; [reflexivity|]); (split; [discriminate|]);
      try (now left);
      right; (split; [reflexivity|]);
      match goal with
      | Hc : bool_decide _ = true |- _ => now apply bool_decide_eq_true in Hc
      end.
  - destruct (not_connected rs); outcome_inv;
      (split; [reflexivity|]); (split; [discriminate | now left]).
Qed.

(** [write_failure_is_reported] when the insert of a booking times out. *)
Lemma write_failure_is_reported_witness :
  let slot := mkSlot "s1" "2024-06-01" "09:00" (Some true) in
  let body := mkBookingBody (Some "s1") (Some "Jane Doe")
                            (Some "jane@example.com") None in
  let r := error_json 500 "Buchung konnte nicht erstellt werden: timed out" in
  outcome (post_bookings 1 body "b1") [mkError None "timed out"] r
  /\ status r <> 200.
Proof.
  intros slot body r.
  assert (H : outcome (post_bookings 1 body "b1") [mkError None "timed out"] r).
  { eapply (outcome_served 7 (mkDB [slot] [])); [reflexivity|]. simpl.
    eapply (outcome_served 8 (mkDB [slot] [])); [reflexivity|]. simpl.
    eapply outcome_rejected; [reflexivity|]. simpl. constructor. }
  split; [exact H|].
  exact (proj1 (proj2 (write_failure_is_reported 1 (mkSlotBody None None) body
                         "b1" "" _ _ _ r
                         (or_intror (or_intror (or_introl eq_refl))) H))).
Defined.

(* ===================================================================== *)
(** ** Concurrent bookings of one slot *)
(* ===================================================================== *)

Lemma post_bookings_attempt (sid : string) (body : BookingBody) (oid : ObjectId) :
  books sid body -> at_lookup sid (post_bookings 1 body oid).
Proof.
  intros (Hs & Hs' & Hn & He). unfold post_bookings. simpl not_connected.
  cbv iota. rewrite Hs, Hn, He.
  destruct sid as [|c sid]; [contradiction|]. simpl.
  eexists. split; [reflexivity|]. intros slot. simpl.
  eexists. split; [reflexivity|]. split.
  - intros b. eexists. split; reflexivity.
  - simpl. eexists. eexists. split; [reflexivity|]. split; [reflexivity|].
    split.
    + intros saved. eexists. split; reflexivity.
    + eexists. split; reflexivity.
Qed.

Lemma booking_findOne_snoc (sid : string) (slots : list AvailableSlot)
    (l : list Booking) (b : Booking) :
  slotId b = sid -> booking_findOne sid (mkDB slots (l ++ [b])) <> None.
Proof.
  intros Hb Hnone.
  apply (proj1 (booking_findOne_None sid _) Hnone b); [|exact Hb].
  simpl. apply in_or_app. right. now left.
Qed.

(** One store call of a pending attempt.  While the slot is free the
    attempt moves on, or stores its Booking and answers 200; once the slot
    is booked it moves on or answers 400, and the store stays as it is. *)
Lemma attempt_resume (sid : string) (now : N) (h h' : Prog Response)
    (db db' : DB) (slot : AvailableSlot) :
  attempt sid h -> slot_findById sid db = Some slot ->
  resume now h db = Some (h', db') ->
  (booking_findOne sid db = None ->
   (attempt sid h' /\ db' = db)
   \/ (answered 200 h' /\ availableslots db' = availableslots db
       /\ exists b, slotId b = sid /\ bookings db' = bookings db ++ [b]))
  /\ (booking_findOne sid db <> None ->
      db' = db /\ (attempt sid h' \/ answered 400 h')).
Proof.
  intros [(k & -> & Hk)|[(k & -> & Hb & Hk)|(nb & k & -> & Hnb & Hok & Hdup)]]
         Hslot Hr; simpl in Hr.
  - injection Hr as <- <-. rewrite Hslot.
    split; intros _.
    + left. split; [|reflexivity]. right. left. apply Hk.
    + split; [reflexivity|]. left. right. left. apply Hk.
  - injection Hr as <- <-. split; intros Hfree.
    + rewrite Hfree. left. split; [|reflexivity]. right. right. exact Hk.
    + split; [reflexivity|].
      destruct (booking_findOne sid db) as [b|]; [|contradiction].
      right. apply Hb.
  - unfold booking_save in Hr. rewrite Hnb in Hr. split; intros Hfree.
    + rewrite Hfree in Hr. injection Hr as <- <-. right.
      split; [apply Hok|]. split; [reflexivity|].
      eexists. split; [|reflexivity]; reflexivity.
    + destruct (booking_findOne sid db) as [b|]; [|contradiction].
      injection Hr as <- <-. split; [reflexivity|]. right. exact Hdup.
Qed.

Lemma answered_no_resume (c now : N) (h : Prog Response) (db : DB) :
  answered c h -> resume now h db = None.
Proof. now intros (r & -> & _). Qed.

Lemma attempt_not_answered (sid : string) (c : N) (h : Prog Response) :
  attempt sid h -> ~ answered c h.
Proof.
  intros [(k & -> & _)|[(k & -> & _)|(nb & k & -> & _)]] (r & Hr & _);
    discriminate.
Qed.

Section OneWinner.
Variables (sid : string) (slot : AvailableSlot) (base : list Booking)
          (slots : list AvailableSlot).

Hypothesis Hslot : List.find (fun s => String.eqb (slot_id s) sid) slots = Some slot.
Hypothesis Hfree : forall b, In b base -> slotId b <> sid.

Lemma racing_step (s s' : System) (ev : Event) :
  is_resume ev -> step s ev = Some s' ->
  racing sid slots base s -> racing sid slots base s'.
Proof.
  destruct ev as [| i now | |]; try contradiction. intros _ Hstep [Hsl Hrace].
  simpl in Hstep.
  destruct (inflight s !! i) as [h|] eqn:Hi; simpl in Hstep; [|discriminate].
  destruct (resume now h (db s)) as [[h' db']|] eqn:Hr; simpl in Hstep;
    [|discriminate].
  injection Hstep as <-. unfold racing. simpl.
  assert (Hfind : slot_findById sid (db s) = Some slot).
  { unfold slot_findById. now rewrite Hsl. }
  assert (Hlen : (i < length (inflight s))%nat) by (eapply lookup_lt_Some; eauto).
  destruct Hrace as [[Hb Hall]|(b & i0 & h0 & Hb & Hbs & Hi0 & Hwon & Hrest)].
  - assert (Hatt : attempt sid h).
    { eapply List.Forall_forall; [exact Hall|].
      apply list_elem_of_In. eapply list_elem_of_lookup_2; eauto. }
    assert (Hnone : booking_findOne sid (db s) = None).
    { apply booking_findOne_None. rewrite Hb. exact Hfree. }
    destruct (proj1 (attempt_resume sid now h h' (db s) db' slot Hatt Hfind Hr)
                    Hnone)
      as [[Hatt' ->]|(Hwon & Hsl' & b & Hsb & Hbs)].
    + split; [exact Hsl|]. left. split; [exact Hb|].
      now apply Forall_insert.
    + split; [congruence|]. right. exists b, i, h'.
      split; [exact Hsb|]. split; [congruence|].
      split; [now apply list_lookup_insert_eq|]. split; [exact Hwon|].
      intros j hj Hne Hj. rewrite list_lookup_insert_ne in Hj by congruence.
      left. eapply List.Forall_forall; [exact Hall|].
      apply list_elem_of_In. eapply list_elem_of_lookup_2; eauto.
  - assert (Hsome : booking_findOne sid (db s) <> None).
    { destruct (db s) as [sl bk]. simpl in *. subst bk.
      now apply booking_findOne_snoc. }
    assert (Hne : i <> i0).
    { intros ->. rewrite Hi0 in Hi. injection Hi as ->.
      rewrite (answered_no_resume 200 now h (db s) Hwon) in Hr. discriminate. }
    destruct (Hrest i h Hne Hi) as [Hatt|Hdone];
      [|rewrite (answered_no_resume 400 now h (db s) Hdone) in Hr; discriminate].
    destruct (proj2 (attempt_resume sid now h h' (db s) db' slot Hatt Hfind Hr)
                    Hsome) as [-> Hh'].
    split; [exact Hsl|]. right. exists b, i0, h0.
    split; [exact Hb|]. split; [exact Hbs|].
    split; [now rewrite list_lookup_insert_ne by congruence|].
    split; [exact Hwon|].
    intros j hj Hj0 Hj. destruct (decide (j = i)) as [->|Hji].
    + rewrite list_lookup_insert_eq in Hj by exact Hlen.
      injection Hj as <-. exact Hh'.
    + rewrite list_lookup_insert_ne in Hj by congruence. eauto.
Qed.

Lemma racing_exec (trace : list Event) (s s' : System) :
  Forall is_resume trace -> exec s trace = Some s' ->
  racing sid slots base s -> racing sid slots base s'.
Proof.
  revert s. induction trace as [|ev trace IH]; simpl; intros s Hres Hx Hrace.
  - now injection Hx as <-.
  - apply List.Forall_cons_iff in Hres as [Hev Hres].
    destruct (step s ev) as [s1|] eqn:E; simpl in Hx; [|discriminate].
    apply (IH s1 Hres Hx). exact (racing_step _ _ _ Hev E Hrace).
Qed.
End OneWinner.

Lemma lookup_map_Some {A B : Type} (f : A -> B) (l : list A) (i : nat) (x : A) :
  l !! i = Some x -> map f l !! i = Some (f x).
Proof.
  revert i. induction l as [|y l IH]; intros [|i]; simpl; try discriminate.
  - now intros [= ->].
  - apply IH.
Qed.

Lemma lookup_map_inv {A B : Type} (f : A -> B) (l : list A) (i : nat) (y : B) :
  map f l !! i = Some y -> exists x, l !! i = Some x /\ y = f x.
Proof.
  revert i. induction l as [|z l IH]; intros [|i]; simpl; try discriminate.
  - intros [= <-]. now exists z.
  - apply IH.
Qed.

Lemma exec_resume_length (trace : list Event) (s s' : System) :
  Forall is_resume trace -> exec s trace = Some s' ->
  length (inflight s') = length (inflight s).
Proof.
  revert s. induction trace as [|ev trace IH]; simpl; intros s Hres Hx.
  - now injection Hx as <-.
  - apply List.Forall_cons_iff in Hres as [Hev Hres].
    destruct (step s ev) as [s1|] eqn:E; simpl in Hx; [|discriminate].
    rewrite (IH s1 Hres Hx).
    destruct ev as [| i now | |]; try contradiction. simpl in E.
    destruct (inflight s !! i) as [h|]; simpl in E; [|discriminate].
    destruct (resume now h (db s)) as [[h' db']|]; simpl in E; [|discriminate].
    injection E as <-. simpl. apply length_insert.
Qed.

(** X18.  Any number of CreateBooking requests for the same free slot,
    in flight together and served by the store in any order: once all
    have answered, exactly one has answered 200, every other one 400, and
    the store holds exactly one more Booking, which references that
    slot. *)
Theorem one_winner (s0 s : System) (reqs : list (BookingBody * ObjectId))
    (sid : string) (slot : AvailableSlot) (trace : list Event)
    (replies : list Response)
    (Hpool : inflight s0 = map (fun q => post_bookings 1 (fst q) (snd q)) reqs)
    (Hreqs : reqs <> [])
    (Hvalid : Forall (fun q => books sid (fst q)) reqs)
    (Hslot : slot_findById sid (db s0) = Some slot)
    (Hfree : forall b, In b (bookings (db s0)) -> slotId b <> sid)
    (Htrace : Forall is_resume trace)
    (Hexec : exec s0 trace = Some s)
    (Hdone : inflight s = map Ret replies) :
  exists i r b,
    replies !! i = Some r /\ status r = 200
    /\ (forall j r', j <> i -> replies !! j = Some r' -> status r' = 400)
    /\ slotId b = sid
    /\ bookings (db s) = bookings (db s0) ++ [b]
    /\ availableslots (db s) = availableslots (db s0).
Proof.
  assert (H0 : racing sid (availableslots (db s0)) (bookings (db s0)) s0).
  { split; [reflexivity|]. left. split; [reflexivity|]. rewrite Hpool.
    clear -Hvalid. induction Hvalid as [|q l Hq _ IH]; simpl; constructor.
    - left. now apply post_bookings_attempt.
    - exact IH. }
  pose proof (racing_exec sid slot (bookings (db s0)) (availableslots (db s0))
                Hslot Hfree trace s0 s Htrace Hexec H0) as [Hsl Hrace].
  destruct Hrace as [[_ Hall]|(b & i & h & Hb & Hbs & Hi & (r & -> & Hr) & Hrest)].
  - exfalso. pose proof (exec_resume_length trace s0 s Htrace Hexec) as Hlen.
    rewrite Hdone, Hpool, !length_map in Hlen.
    destruct replies as [|r0 replies]; [destruct reqs; [contradiction | discriminate]|].
    rewrite Hdone in Hall. simpl in Hall. apply List.Forall_cons_iff in Hall as [Hatt _].
    apply (attempt_not_answered sid (status r0) (Ret r0) Hatt). now exists r0.
  - rewrite Hdone in Hi. apply lookup_map_inv in Hi as (r1 & Hi & [= <-]).
    exists i, r, b. split; [exact Hi|]. split; [exact Hr|]. split.
    + intros j r' Hne Hj.
      destruct (Hrest j (Ret r') Hne) as [Hatt|(r2 & [= <-] & H2)].
      * rewrite Hdone. now apply lookup_map_Some.
      * exfalso. apply (attempt_not_answered sid (status r') (Ret r') Hatt).
        now exists r'.
      * exact H2.
    + split; [exact Hb|]. split; [exact Hbs | exact Hsl].
Qed.

(** [one_winner] for two clients whose calls interleave so that both
    lookups pass before either insert. *)
Lemma one_winner_witness :
  let slot := mkSlot "s1" "2024-06-01" "09:00" (Some true) in
  let jane := mkBookingBody (Some "s1") (Some "Jane Doe")
                            (Some "jane@example.com") None in
  let john := mkBookingBody (Some "s1") (Some "John Roe")
                            (Some "john@example.com") (Some "555") in
  let stored := mkBooking "b2" "s1" "2024-06-01" "09:00" "John Roe"
                          "john@example.com" "555" 106 in
  let replies := [error_json 400 "This slot is already booked";
                  json (formatBooking stored)] in
  exists i r b,
    replies !! i = Some r /\ status r = 200
    /\ (forall j r', j <> i -> replies !! j = Some r' -> status r' = 400)
    /\ slotId b = "s1"
    /\ [stored] = [] ++ [b]
    /\ [slot] = [slot].
Proof.
  intros slot jane john stored replies.
  refine (one_winner
            (mkSystem (mkProcess None 1 ∅) (mkDB [slot] [])
                      [post_bookings 1 jane "b1"; post_bookings 1 john "b2"])
            (mkSystem (mkProcess None 1 ∅) (mkDB [slot] [stored]) (map Ret replies))
            [(jane, "b1"); (john, "b2")] "s1" slot
            [Resume 0 102; Resume 1 103; Resume 0 104; Resume 1 105;
             Resume 1 106; Resume 0 107]
            replies eq_refl _ _ eq_refl _ _ _ eq_refl).
  - discriminate.
  - repeat constructor; simpl; discriminate.
  - intros b [].
  - repeat constructor.
  - vm_compute. reflexivity.
Defined.

(* ===================================================================== *)
(** ** DeleteSlot racing with CreateBooking *)
(* ===================================================================== *)

Lemma exec_resume_cons (s : System) (i : nat) (now : N)
    (h h' : Prog Response) (db' : DB) (trace : list Event) :
  inflight s !! i = Some h -> resume now h (db s) = Some (h', db') ->
  exec s (Resume i now :: trace)
  = exec (mkSystem (process s) db' (<[i := h']> (inflight s))) trace.
Proof. intros Hi Hr. simpl. rewrite Hi. simpl. rewrite Hr. reflexivity. Qed.

(** X19.  The guard of DeleteSlot and its delete are two store calls.
    When a CreateBooking for the same slot is served between them, both
    requests answer 200 and the store is left with a Booking whose Slot
    is gone: integrity, kept when requests are served one at a time, is
    not kept under interleaving. *)
Theorem delete_races_with_booking (p : Process) (slot : AvailableSlot)
    (body : BookingBody) (oid name email : string) (n1 n2 n3 n4 n5 : N)
    (Hid : slot_id slot <> "")
    (Hs : body_slotId body = Some (slot_id slot))
    (Hn : body_clientName body = Some name) (Hn' : name <> "")
    (He : body_clientEmail body = Some email) (He' : email <> "") :
  let s0 := mkSystem p (mkDB [slot] [])
                     [delete_available_slots 1 (slot_id slot);
                      post_bookings 1 body oid] in
  let b := mkBooking oid (slot_id slot) (slot_date slot) (slot_time slot)
                     name email (JS.orElse (body_clientPhone body) "") n4 in
  integrity (db s0)
  /\ exec s0 [Resume 0 n1; Resume 1 n2; Resume 1 n3; Resume 1 n4; Resume 0 n5]
     = Some (mkSystem p (mkDB [] [b])
               [Ret (json (JObj [("message", JStr "Platz erfolgreich gelöscht")]));
                Ret (json (formatBooking b))])
  /\ ~ integrity (mkDB [] [b]).
Proof.
  intros s0 b. split; [intros b0 []|]. split.
  - subst s0 b. unfold post_bookings, delete_available_slots.
    simpl not_connected. cbv iota. rewrite Hs, Hn, He.
    rewrite (proj2 (truthy_Some (Some (slot_id slot))))
      by (eexists; split; [reflexivity | exact Hid]).
    rewrite (proj2 (truthy_Some (Some name)))
      by (eexists; split; [reflexivity | exact Hn']).
    rewrite (proj2 (truthy_Some (Some email)))
      by (eexists; split; [reflexivity | exact He']).
    simpl negb. simpl orb. cbv iota.
    assert (Hfind : forall bks, slot_findById (slot_id slot) (mkDB [slot] bks)
                                = Some slot).
    { intros bks. unfold slot_findById. simpl. now rewrite String.eqb_refl. }
    do 5 (eapply eq_trans;
          [ eapply exec_resume_cons;
            [ reflexivity
            | repeat progress (simpl; unfold slot_findByIdAndDelete;
                               rewrite ?Hfind, ?String.eqb_refl);
              reflexivity ]
          | simpl insert ]).
    reflexivity.
  - intros Hint. destruct (Hint b (or_introl eq_refl)) as (s1 & [] & _).
Qed.

(** [delete_races_with_booking] for one slot and one client. *)
Lemma delete_races_with_booking_witness :
  let slot := mkSlot "s1" "2024-06-01" "09:00" (Some true) in
  let body := mkBookingBody (Some "s1") (Some "Jane Doe")
                            (Some "jane@example.com") None in
  let b := mkBooking "b1" "s1" "2024-06-01" "09:00" "Jane Doe"
                     "jane@example.com" "" 104 in
  exec (mkSystem (mkProcess None 1 ∅) (mkDB [slot] [])
                 [delete_available_slots 1 "s1"; post_bookings 1 body "b1"])
       [Resume 0 101; Resume 1 102; Resume 1 103; Resume 1 104; Resume 0 105]
  = Some (mkSystem (mkProcess None 1 ∅) (mkDB [] [b])
            [Ret (json (JObj [("message", JStr "Platz erfolgreich gelöscht")]));
             Ret (json (formatBooking b))])
  /\ ~ integrity (mkDB [] [b]).
Proof.
  intros slot body b.
  refine (proj2 (delete_races_with_booking (mkProcess None 1 ∅) slot body "b1"
                   "Jane Doe" "jane@example.com" 101 102 103 104 105
                   _ eq_refl eq_refl _ eq_refl _)); discriminate.
Defined.
